(** * A shallow embedding of [edurec/sasrec_model.py]

    The self-attentive sequence encoder of the repository is a composition of
    TensorFlow operators.  Tensors are embedded the way the framework stores
    them: a shape together with a row-major buffer.  Entries are real
    numbers (the rounding of [tf.float32] is not modelled); token
    identifiers are integers.  Every operator that the framework can reject
    returns in an error monad. *)

From Stdlib Require Import List ZArith Reals Lra Lia Bool Arith.
Import ListNotations.

(* ================================================================== *)
(** * Part I.  Definitions *)
(* ================================================================== *)

(** ** Errors *)

Inductive error : Type :=
| AssertionError
| ZeroDivisionError
| IndexError
| InvalidArgumentError.

Inductive result (A : Type) : Type :=
| Ok (a : A)
| Raise (e : error).

Arguments Ok {A} a.
Arguments Raise {A} e.

Definition bind {A B : Type} (m : result A) (k : A -> result B) : result B :=
  match m with
  | Ok a => k a
  | Raise e => Raise e
  end.

Notation "x <- m ;; k" := (bind m (fun x => k))
  (at level 61, m at next level, right associativity).
Notation "' p <- m ;; k" := (bind m (fun x => match x with p => k end))
  (at level 61, p pattern, m at next level, right associativity).

(** ** Tensors: a shape and a row-major buffer *)

Record tensor (A : Type) : Type := mkTensor {
  shape : list nat;
  data : list A
}.

Arguments mkTensor {A} shape data.
Arguments shape {A} t.
Arguments data {A} t.

Definition numel (sh : list nat) : nat := fold_right Nat.mul 1 sh.

Definition wf {A : Type} (t : tensor A) : Prop :=
  length (data t) = numel (shape t).

(** Offset of a multi-index in the buffer. *)
Fixpoint ravel (sh idx : list nat) : nat :=
  match sh, idx with
  | _ :: sh', i :: idx' => i * numel sh' + ravel sh' idx'
  | _, _ => 0
  end.

(** Multi-index of an offset. *)
Fixpoint unravel (sh : list nat) (k : nat) : list nat :=
  match sh with
  | [] => []
  | _ :: sh' => (k / numel sh') :: unravel sh' (k mod numel sh')
  end.

Definition in_bounds (sh idx : list nat) : Prop :=
  Forall2 (fun i n => i < n) idx sh.

Definition get {A : Type} (d : A) (t : tensor A) (idx : list nat) : A :=
  nth (ravel (shape t) idx) (data t) d.

(** The tensor of shape [sh] whose entry at [idx] is [f idx]. *)
Definition tabulate {A : Type} (sh : list nat) (f : list nat -> A) : tensor A :=
  mkTensor sh (map (fun k => f (unravel sh k)) (seq 0 (numel sh))).

Definition scalar {A : Type} (x : A) : tensor A := mkTensor [] [x].

Definition tmap {A B : Type} (f : A -> B) (t : tensor A) : tensor B :=
  mkTensor (shape t) (map f (data t)).

Definition rget := get 0%R.
Definition zget := get 0%Z.

Definition sum_n (n : nat) (f : nat -> R) : R :=
  fold_right Rplus 0%R (map f (seq 0 n)).

(** ** Broadcasting *)

Definition broadcast_dim (x y : nat) : result nat :=
  if x =? y then Ok x
  else if x =? 1 then Ok y
  else if y =? 1 then Ok x
  else Raise InvalidArgumentError.

(** An extent [y] that broadcasts against [x] without changing it. *)
Definition fits (x y : nat) : Prop := y = x \/ y = 1.

(** Shapes are aligned on their last axis; [a] and [b] are reversed shapes. *)
Fixpoint broadcast_rev (a b : list nat) : result (list nat) :=
  match a, b with
  | [], _ => Ok b
  | _, [] => Ok a
  | x :: a', y :: b' =>
      r <- broadcast_rev a' b' ;;
      z <- broadcast_dim x y ;;
      Ok (z :: r)
  end.

Definition broadcast_shapes (a b : list nat) : result (list nat) :=
  r <- broadcast_rev (rev a) (rev b) ;; Ok (rev r).

Fixpoint clamp_idx (sh idx : list nat) : list nat :=
  match sh, idx with
  | n :: sh', i :: idx' => (if n =? 1 then 0 else i) :: clamp_idx sh' idx'
  | _, _ => []
  end.

(** The index read in an operand of shape [sh] for the entry [idx] of the
    broadcast result. *)
Definition bcast_index (sh idx : list nat) : list nat :=
  clamp_idx sh (skipn (length idx - length sh) idx).

Definition broadcast_op (f : R -> R -> R) (a b : tensor R) : result (tensor R) :=
  sh <- broadcast_shapes (shape a) (shape b) ;;
  Ok (tabulate sh (fun idx =>
        f (rget a (bcast_index (shape a) idx))
          (rget b (bcast_index (shape b) idx)))).

(** ** TensorFlow operators *)

Definition split_last2 (l : list nat) : result (list nat * nat * nat) :=
  match rev l with
  | n :: m :: pre => Ok (rev pre, m, n)
  | _ => Raise InvalidArgumentError
  end.

(** [tf.shape(t)[i]] for a non-negative [i]. *)
Definition shape_at {A : Type} (t : tensor A) (i : nat) : result nat :=
  match nth_error (shape t) i with
  | Some n => Ok n
  | None => Raise IndexError
  end.

(** [tf.shape(t)[-1]]. *)
Definition shape_last {A : Type} (t : tensor A) : result nat :=
  match rev (shape t) with
  | n :: _ => Ok n
  | [] => Raise IndexError
  end.

(** [tf.cast(n, tf.float32)] of a scalar extent. *)
Definition cast_float (n : nat) : tensor R := scalar (INR n).

Definition tf_sqrt (t : tensor R) : tensor R := tmap sqrt t.

(** [tf.matmul(a, b, transpose_b=tb)]: a product over the last two axes,
    the leading axes being broadcast. *)
Definition matmul (a b : tensor R) (tb : bool) : result (tensor R) :=
  '(pa, m, n) <- split_last2 (shape a) ;;
  '(pb, r, c) <- split_last2 (shape b) ;;
  let inner := if tb then c else r in
  let p := if tb then r else c in
  if n =? inner then
    batch <- broadcast_shapes pa pb ;;
    Ok (tabulate (batch ++ [m; p]) (fun idx =>
      match split_last2 idx with
      | Ok (bi, i, j) =>
          sum_n n (fun d =>
            rget a (bcast_index pa bi ++ [i; d]) *
            rget b (bcast_index pb bi ++ (if tb then [j; d] else [d; j])))%R
      | Raise _ => 0%R
      end))
  else Raise InvalidArgumentError.

(** [tf.nn.softmax(x, axis=-1)]. *)
Definition softmax (x : tensor R) : result (tensor R) :=
  match rev (shape x) with
  | n :: _ =>
      Ok (tabulate (shape x) (fun idx =>
        (exp (rget x idx) /
         sum_n n (fun j => exp (rget x (removelast idx ++ [j]))))%R))
  | [] => Raise InvalidArgumentError
  end.

(** [tf.reshape(t, sizes)].  At most one extent may be [-1]; it is inferred
    by exact division, which needs the other extents to multiply to a
    non-zero number. *)
Definition reshape {A : Type} (t : tensor A) (sizes : list Z) : result (tensor A) :=
  if existsb (fun z => (z <? -1)%Z) sizes then Raise InvalidArgumentError
  else
    let total := numel (shape t) in
    match count_occ Z.eq_dec sizes (-1)%Z with
    | 0 =>
        let sh := map Z.to_nat sizes in
        if numel sh =? total then Ok (mkTensor sh (data t))
        else Raise InvalidArgumentError
    | 1 =>
        let known :=
          numel (map Z.to_nat (filter (fun z => negb (z =? -1)%Z) sizes)) in
        if known =? 0 then Raise InvalidArgumentError
        else if total mod known =? 0 then
          Ok (mkTensor
                (map (fun z => if (z =? -1)%Z then total / known
                               else Z.to_nat z) sizes)
                (data t))
        else Raise InvalidArgumentError
    | _ => Raise InvalidArgumentError
    end.

Definition is_perm (perm : list nat) (rank : nat) : bool :=
  (length perm =? rank) &&
  forallb (fun j => existsb (Nat.eqb j) perm) (seq 0 rank).

Fixpoint index_of (j : nat) (perm : list nat) : nat :=
  match perm with
  | [] => 0
  | p :: perm' => if p =? j then 0 else S (index_of j perm')
  end.

(** [tf.transpose(t, perm)]: axis [k] of the result is axis [perm[k]] of
    [t]. *)
Definition transpose {A : Type} (d : A) (t : tensor A) (perm : list nat)
  : result (tensor A) :=
  let sh := shape t in
  if is_perm perm (length sh) then
    Ok (tabulate (map (fun p => nth p sh 0) perm) (fun idx' =>
          get d t (map (fun j => nth (index_of j perm) idx' 0)
                       (seq 0 (length sh)))))
  else Raise InvalidArgumentError.

(** [tf.range(n)]. *)
Definition tf_range (n : nat) : tensor Z :=
  mkTensor [n] (map Z.of_nat (seq 0 n)).

(** [tf.expand_dims(t, 0)]. *)
Definition expand_dims0 {A : Type} (t : tensor A) : tensor A :=
  mkTensor (1 :: shape t) (data t).

Fixpoint zip_with {A B C : Type} (f : A -> B -> C) (l : list A) (l' : list B)
  : list C :=
  match l, l' with
  | a :: l, b :: l' => f a b :: zip_with f l l'
  | _, _ => []
  end.

(** [tf.tile(t, multiples)]. *)
Definition tile {A : Type} (d : A) (t : tensor A) (multiples : list nat)
  : result (tensor A) :=
  if length multiples =? length (shape t) then
    Ok (tabulate (zip_with Nat.mul (shape t) multiples) (fun idx =>
          get d t (zip_with (fun i n => i mod n) idx (shape t))))
  else Raise InvalidArgumentError.

(** ** Keras layers

    A layer object carries its hyper-parameters and the current value of
    its variables (the learned parameters). *)

Definition shape_eqb (a b : list nat) : bool :=
  if list_eq_dec Nat.eq_dec a b then true else false.

Definition relu (x : R) : R := Rmax 0 x.

(** [tf.keras.layers.Dense(units)]: a projection of the last axis. *)
Module Dense.

Record t : Type := mk {
  units : Z;
  kernel : tensor R;
  bias : tensor R
}.

Definition call (self : t) (x : tensor R) : result (tensor R) :=
  let u := Z.to_nat (units self) in
  match rev (shape x) with
  | c :: m :: pre =>
      if shape_eqb (shape (kernel self)) [c; u]
         && shape_eqb (shape (bias self)) [u]
      then
        Ok (tabulate (rev (m :: pre) ++ [u]) (fun idx =>
          (sum_n c (fun i =>
             rget x (removelast idx ++ [i]) *
             rget (kernel self) [i; last idx 0%nat])
           + rget (bias self) [last idx 0%nat])%R))
      else Raise InvalidArgumentError
  | _ => Raise InvalidArgumentError
  end.

End Dense.

(** [tf.keras.layers.Conv1D(filters, kernel_size, activation)] with the
    defaults of the framework: stride 1, no padding, channels last. *)
Module Conv1D.

Record t : Type := mk {
  filters : Z;
  kernel_size : nat;
  activation : R -> R;
  kernel : tensor R;
  bias : tensor R
}.

Definition call (self : t) (x : tensor R) : result (tensor R) :=
  let f := Z.to_nat (filters self) in
  let ks := kernel_size self in
  match shape x with
  | [b; s; c] =>
      if shape_eqb (shape (kernel self)) [ks; c; f]
         && shape_eqb (shape (bias self)) [f]
         && (ks <=? s + 1)
      then
        Ok (tabulate [b; s + 1 - ks; f] (fun idx =>
          match idx with
          | [i; p; o] =>
              activation self
                (sum_n ks (fun dk =>
                   sum_n c (fun ch =>
                     rget x [i; (p + dk)%nat; ch] *
                     rget (kernel self) [dk; ch; o]))
                 + rget (bias self) [o])%R
          | _ => 0%R
          end))
      else Raise InvalidArgumentError
  | _ => Raise InvalidArgumentError
  end.

End Conv1D.

(** [tf.keras.layers.Dropout(rate)].  The random keep decisions of one call
    are an explicit argument [keep], one decision per entry. *)
Module Dropout.

Record t : Type := mk { rate : R }.

Definition call (self : t) (x : tensor R) (training : bool)
           (keep : list nat -> bool) : tensor R :=
  if training then
    if Req_dec_T (rate self) 0 then x
    else tabulate (shape x) (fun idx =>
           if keep idx then (rget x idx * (1 / (1 - rate self)))%R
           else 0%R)
  else x.

End Dropout.

(** [tf.keras.layers.LayerNormalization(epsilon)] over the last axis. *)
Module LayerNormalization.

Record t : Type := mk {
  epsilon : R;
  gamma : tensor R;
  beta : tensor R
}.

Definition mean (n : nat) (x : tensor R) (pre : list nat) : R :=
  (sum_n n (fun j => rget x (pre ++ [j])) / INR n)%R.

Definition variance (n : nat) (x : tensor R) (pre : list nat) : R :=
  (sum_n n (fun j => Rsqr (rget x (pre ++ [j]) - mean n x pre)) / INR n)%R.

Definition call (self : t) (x : tensor R) : result (tensor R) :=
  match rev (shape x) with
  | n :: _ =>
      if shape_eqb (shape (gamma self)) [n]
         && shape_eqb (shape (beta self)) [n]
      then
        Ok (tabulate (shape x) (fun idx =>
          let pre := removelast idx in
          ((rget x idx - mean n x pre)
           / sqrt (variance n x pre + epsilon self)
           * rget (gamma self) [last idx 0%nat]
           + rget (beta self) [last idx 0%nat])%R))
      else Raise InvalidArgumentError
  | [] => Raise InvalidArgumentError
  end.

End LayerNormalization.

(** [tf.keras.layers.Embedding(input_dim, output_dim)]: a table lookup.
    An identifier outside the table is rejected. *)
Module Embedding.

Record t : Type := mk {
  input_dim : Z;
  output_dim : Z;
  mask_zero : bool;
  l2 : R;
  embeddings : tensor R
}.

Definition id_ok (self : t) (i : Z) : bool :=
  (0 <=? i)%Z && (i <? input_dim self)%Z.

Definition call (self : t) (ids : tensor Z) : result (tensor R) :=
  let rows := Z.to_nat (input_dim self) in
  let cols := Z.to_nat (output_dim self) in
  if shape_eqb (shape (embeddings self)) [rows; cols] then
    if forallb (id_ok self) (data ids) then
      Ok (tabulate (shape ids ++ [cols]) (fun idx =>
            rget (embeddings self)
                 [Z.to_nat (zget ids (removelast idx)); last idx 0%nat]))
    else Raise InvalidArgumentError
  else Raise InvalidArgumentError.

End Embedding.

(** ** Python integer arithmetic *)

Definition py_mod (a b : Z) : result Z :=
  if (b =? 0)%Z then Raise ZeroDivisionError else Ok (a mod b)%Z.

Definition py_floordiv (a b : Z) : result Z :=
  if (b =? 0)%Z then Raise ZeroDivisionError else Ok (a / b)%Z.

(** ** The source *)

Definition scaled_dot_product_attention (q k v : tensor R)
           (mask : option (tensor R)) : result (tensor R * tensor R) :=
  matmul_qk <- matmul q k true ;;
  n <- shape_last k ;;
  let dk := cast_float n in
  scaled_attention_logits <- broadcast_op Rdiv matmul_qk (tf_sqrt dk) ;;
  scaled_attention_logits <-
    match mask with
    | Some m =>
        penalty <- broadcast_op Rmult m (scalar (- 1000000000)%R) ;;
        broadcast_op Rplus scaled_attention_logits penalty
    | None => Ok scaled_attention_logits
    end ;;
  attention_weights <- softmax scaled_attention_logits ;;
  output <- matmul attention_weights v false ;;
  Ok (output, attention_weights).

Record dense_weights : Type := mkDenseW {
  w_kernel : tensor R;
  w_bias : tensor R
}.

Definition new_dense (units : Z) (w : dense_weights) : Dense.t :=
  Dense.mk units (w_kernel w) (w_bias w).

Module MultiHeadAttention.

Record weights : Type := mkWeights {
  wq_w : dense_weights;
  wk_w : dense_weights;
  wv_w : dense_weights;
  dense_w : dense_weights
}.

Record t : Type := mk {
  num_heads : Z;
  d_model : Z;
  depth : Z;
  wq : Dense.t;
  wk : Dense.t;
  wv : Dense.t;
  dense : Dense.t
}.

Definition init (d_model num_heads : Z) (w : weights) : result t :=
  r <- py_mod d_model num_heads ;;
  if negb (r =? 0)%Z then Raise AssertionError
  else
    depth <- py_floordiv d_model num_heads ;;
    Ok (mk num_heads d_model depth
           (new_dense d_model (wq_w w))
           (new_dense d_model (wk_w w))
           (new_dense d_model (wv_w w))
           (new_dense d_model (dense_w w))).

Definition split_heads (self : t) (x : tensor R) (batch_size : nat)
  : result (tensor R) :=
  x <- reshape x [Z.of_nat batch_size; (-1)%Z; num_heads self; depth self] ;;
  transpose 0%R x [0; 2; 1; 3].

Definition call (self : t) (v k q : tensor R) (mask : option (tensor R))
  : result (tensor R * tensor R) :=
  batch_size <- shape_at q 0 ;;
  q <- Dense.call (wq self) q ;;
  k <- Dense.call (wk self) k ;;
  v <- Dense.call (wv self) v ;;
  q <- split_heads self q batch_size ;;
  k <- split_heads self k batch_size ;;
  v <- split_heads self v batch_size ;;
  '(scaled_attention, attention_weights) <-
    scaled_dot_product_attention q k v mask ;;
  scaled_attention <- transpose 0%R scaled_attention [0; 2; 1; 3] ;;
  concat_attention <-
    reshape scaled_attention [Z.of_nat batch_size; (-1)%Z; d_model self] ;;
  output <- Dense.call (dense self) concat_attention ;;
  Ok (output, attention_weights).

End MultiHeadAttention.

Module PointWiseFFN.

Record weights : Type := mkWeights {
  conv1_w : dense_weights;
  conv2_w : dense_weights
}.

Record t : Type := mk {
  conv1d_1 : Conv1D.t;
  conv1d_2 : Conv1D.t;
  dropout : Dropout.t
}.

Definition init (d_model : Z) (rate : R) (w : weights) : t :=
  mk (Conv1D.mk d_model 1 relu (w_kernel (conv1_w w)) (w_bias (conv1_w w)))
     (Conv1D.mk d_model 1 relu (w_kernel (conv2_w w)) (w_bias (conv2_w w)))
     (Dropout.mk rate).

Definition call (self : t) (x : tensor R) (training : bool)
           (keep : list nat -> bool) : result (tensor R) :=
  out <- Conv1D.call (conv1d_1 self) x ;;
  let out := Dropout.call (dropout self) out training keep in
  out <- Conv1D.call (conv1d_2 self) out ;;
  Ok out.

End PointWiseFFN.

Module SASEncoderLayer.

Record weights : Type := mkWeights {
  mha_w : MultiHeadAttention.weights;
  ffn_w : PointWiseFFN.weights;
  ln1_gamma : tensor R;
  ln1_beta : tensor R;
  ln2_gamma : tensor R;
  ln2_beta : tensor R
}.

(** The keep decisions drawn by the three dropout layers in one call. *)
Record noise : Type := mkNoise {
  keep1 : list nat -> bool;
  keep_ffn : list nat -> bool;
  keep2 : list nat -> bool
}.

Record t : Type := mk {
  mha : MultiHeadAttention.t;
  ffn : PointWiseFFN.t;
  layernorm1 : LayerNormalization.t;
  layernorm2 : LayerNormalization.t;
  dropout1 : Dropout.t;
  dropout2 : Dropout.t
}.

Definition init (d_model num_heads : Z) (rate : R) (w : weights) : result t :=
  mha <- MultiHeadAttention.init d_model num_heads (mha_w w) ;;
  Ok (mk mha
         (PointWiseFFN.init d_model rate (ffn_w w))
         (LayerNormalization.mk (1 / 1000000)%R (ln1_gamma w) (ln1_beta w))
         (LayerNormalization.mk (1 / 1000000)%R (ln2_gamma w) (ln2_beta w))
         (Dropout.mk rate)
         (Dropout.mk rate)).

Definition call (self : t) (x : tensor R) (training : bool)
           (mask : option (tensor R)) (nz : noise) : result (tensor R) :=
  '(attn_output, _) <- MultiHeadAttention.call (mha self) x x x mask ;;
  let attn_output :=
    Dropout.call (dropout1 self) attn_output training (keep1 nz) in
  s1 <- broadcast_op Rplus x attn_output ;;
  out1 <- LayerNormalization.call (layernorm1 self) s1 ;;
  ffn_output <- PointWiseFFN.call (ffn self) out1 training (keep_ffn nz) ;;
  let ffn_output :=
    Dropout.call (dropout2 self) ffn_output training (keep2 nz) in
  s2 <- broadcast_op Rplus out1 ffn_output ;;
  out2 <- LayerNormalization.call (layernorm2 self) s2 ;;
  Ok out2.

End SASEncoderLayer.

Module SASEncoder.

Record weights : Type := mkWeights {
  emb_table : tensor R;
  pos_table : tensor R;
  layer_w : nat -> SASEncoderLayer.weights
}.

Record noise : Type := mkNoise {
  keep_emb : list nat -> bool;
  layer_noise : nat -> SASEncoderLayer.noise
}.

Record t : Type := mk {
  d_model : Z;
  num_layers : Z;
  embedding : Embedding.t;
  pos_embedding : Embedding.t;
  enc_layers : list SASEncoderLayer.t;
  dropout : Dropout.t
}.

(** [[SASEncoderLayer(d_model, num_heads, rate) for _ in range(num_layers)]] *)
Fixpoint build_layers (d_model num_heads : Z) (rate : R)
         (w : nat -> SASEncoderLayer.weights) (ixs : list nat)
  : result (list SASEncoderLayer.t) :=
  match ixs with
  | [] => Ok []
  | i :: ixs' =>
      l <- SASEncoderLayer.init d_model num_heads rate (w i) ;;
      ls <- build_layers d_model num_heads rate w ixs' ;;
      Ok (l :: ls)
  end.

Definition init (num_layers d_model num_heads input_vocab_size max_len : Z)
           (rate l2_emb : R) (w : weights) : result t :=
  layers <- build_layers d_model num_heads rate (layer_w w)
                         (seq 0 (Z.to_nat num_layers)) ;;
  Ok (mk d_model num_layers
         (Embedding.mk input_vocab_size d_model true l2_emb (emb_table w))
         (Embedding.mk max_len d_model false l2_emb (pos_table w))
         layers
         (Dropout.mk rate)).

(** [tf.tile(tf.expand_dims(tf.range(tf.shape(x)[1]), 0), [tf.shape(x)[0], 1])] *)
Definition positions (x : tensor R) : result (tensor Z) :=
  n1 <- shape_at x 1 ;;
  n0 <- shape_at x 0 ;;
  tile 0%Z (expand_dims0 (tf_range n1)) [n0; 1].

(** The part of [call] before the loop over the layers. *)
Definition embed (self : t) (x : tensor Z) (training : bool)
           (keep : list nat -> bool) : result (tensor R) :=
  seq_len <- shape_at x 1 ;;
  x <- Embedding.call (embedding self) x ;;
  x <- broadcast_op Rmult x (tf_sqrt (scalar (IZR (d_model self)))) ;;
  x_pos <- positions x ;;
  pos <- Embedding.call (pos_embedding self) x_pos ;;
  x <- broadcast_op Rplus x pos ;;
  Ok (Dropout.call (dropout self) x training keep).

(** [for i in ixs: x = self.enc_layers[i](x, training, mask)] *)
Fixpoint run_layers (self : t) (ixs : list nat) (x : tensor R)
         (training : bool) (mask : option (tensor R))
         (nz : nat -> SASEncoderLayer.noise) : result (tensor R) :=
  match ixs with
  | [] => Ok x
  | i :: ixs' =>
      match nth_error (enc_layers self) i with
      | Some layer =>
          x <- SASEncoderLayer.call layer x training mask (nz i) ;;
          run_layers self ixs' x training mask nz
      | None => Raise IndexError
      end
  end.

Definition call (self : t) (x : tensor Z) (training : bool)
           (mask : option (tensor R)) (nz : noise) : result (tensor R) :=
  x <- embed self x training (keep_emb nz) ;;
  run_layers self (seq 0 (Z.to_nat (num_layers self))) x training mask
             (layer_noise nz).

End SASEncoder.


(** ** The attention formula of the specification

    Written from the words of the specification, entry by entry: [bi] is the
    index of the leading axes, [i] a query position, [j] a key position. *)

Definition spec_logit (q k : tensor R) (mask : option (tensor R))
           (depth : nat) (bi : list nat) (i j : nat) : R :=
  let scaled :=
    (sum_n depth (fun d => rget q (bi ++ [i; d]) * rget k (bi ++ [j; d]))
     / sqrt (INR depth))%R in
  match mask with
  | Some m =>
      (scaled + rget m (bcast_index (shape m) (bi ++ [i; j])) * - 1000000000)%R
  | None => scaled
  end.

Definition spec_weight (q k : tensor R) (mask : option (tensor R))
           (depth sk : nat) (bi : list nat) (i j : nat) : R :=
  (exp (spec_logit q k mask depth bi i j)
   / sum_n sk (fun j' => exp (spec_logit q k mask depth bi i j')))%R.

Definition spec_attention (q k v : tensor R) (mask : option (tensor R))
           (depth sk : nat) (bi : list nat) (i c : nat) : R :=
  sum_n sk (fun j =>
    spec_weight q k mask depth sk bi i j * rget v (bi ++ [j; c]))%R.




(** ** Projections and heads in the words of the specification *)

(** Entry [f] of the projection by [l] of the feature row [row] of [x]. *)
Definition dense_entry (l : Dense.t) (x : tensor R) (row : list nat) (f : nat) : R :=
  (sum_n (last (shape x) 0%nat)
         (fun c => rget x (row ++ [c]) * rget (Dense.kernel l) [c; f])
   + rget (Dense.bias l) [f])%R.

(** [xh] is the projection of [x] by [l], cut into [h] heads of width [dp],
    the head axis coming before the sequence axis. *)
Definition heads_of (l : Dense.t) (x xh : tensor R) (b s h dp : nat) : Prop :=
  shape xh = [b; h; s; dp] /\
  forall i a p d, i < b -> a < h -> p < s -> d < dp ->
    rget xh [i; a; p; d] = dense_entry l x [i; p] (a * dp + d).

(** ** Layers whose variables have the shapes their inputs need *)

Definition dense_ok (l : Dense.t) (c u : nat) : Prop :=
  Z.to_nat (Dense.units l) = u /\
  shape (Dense.kernel l) = [c; u] /\
  shape (Dense.bias l) = [u].

(** A multi-head attention layer with [h] heads of width [dp], built for
    query, key and value inputs of [cq], [ck] and [cv] features. *)
Definition mha_ok (self : MultiHeadAttention.t) (h dp cq ck cv : nat) : Prop :=
  0 < h /\ 0 < dp /\
  MultiHeadAttention.num_heads self = Z.of_nat h /\
  MultiHeadAttention.depth self = Z.of_nat dp /\
  MultiHeadAttention.d_model self = Z.of_nat (h * dp) /\
  dense_ok (MultiHeadAttention.wq self) cq (h * dp) /\
  dense_ok (MultiHeadAttention.wk self) ck (h * dp) /\
  dense_ok (MultiHeadAttention.wv self) cv (h * dp) /\
  dense_ok (MultiHeadAttention.dense self) (h * dp) (h * dp).


(** ** The feed-forward block in the words of the specification *)

(** What dropout does to one entry: nothing unless training. *)
Definition dropout_value (rate : R) (training kept : bool) (x : R) : R :=
  if training then
    if Req_dec_T rate 0 then x
    else if kept then (x * (1 / (1 - rate)))%R else 0%R
  else x.

(** A kernel-size-1 projection of the [c] features [feat] of one position,
    followed by the nonlinearity. *)
Definition project_position (kernel bias : tensor R) (c : nat)
           (feat : nat -> R) (o : nat) : R :=
  relu (sum_n c (fun ch => feat ch * rget kernel [0%nat; ch; o])
        + rget bias [o])%R.

(** The feed-forward block at one position: it reads the features [feat]
    and the keep decisions [kept] of that position only. *)
Definition ffn_position (self : PointWiseFFN.t) (training : bool) (c dm : nat)
           (feat : nat -> R) (kept : nat -> bool) (o : nat) : R :=
  project_position
    (Conv1D.kernel (PointWiseFFN.conv1d_2 self))
    (Conv1D.bias (PointWiseFFN.conv1d_2 self)) dm
    (fun c' =>
       dropout_value (Dropout.rate (PointWiseFFN.dropout self)) training
         (kept c')
         (project_position
            (Conv1D.kernel (PointWiseFFN.conv1d_1 self))
            (Conv1D.bias (PointWiseFFN.conv1d_1 self)) c feat c'))
    o.

Definition conv_ok (l : Conv1D.t) (c f : nat) : Prop :=
  Z.to_nat (Conv1D.filters l) = f /\
  shape (Conv1D.kernel l) = [Conv1D.kernel_size l; c; f] /\
  shape (Conv1D.bias l) = [f].

Definition ln_ok (l : LayerNormalization.t) (n : nat) : Prop :=
  shape (LayerNormalization.gamma l) = [n] /\
  shape (LayerNormalization.beta l) = [n].

Definition ffn_weights_ok (w : PointWiseFFN.weights) (c dm : nat) : Prop :=
  shape (w_kernel (PointWiseFFN.conv1_w w)) = [1; c; dm] /\
  shape (w_bias (PointWiseFFN.conv1_w w)) = [dm] /\
  shape (w_kernel (PointWiseFFN.conv2_w w)) = [1; dm; dm] /\
  shape (w_bias (PointWiseFFN.conv2_w w)) = [dm].


Definition ffn_ok (self : PointWiseFFN.t) (c dm : nat) : Prop :=
  Conv1D.kernel_size (PointWiseFFN.conv1d_1 self) = 1 /\
  Conv1D.kernel_size (PointWiseFFN.conv1d_2 self) = 1 /\
  Conv1D.activation (PointWiseFFN.conv1d_1 self) = relu /\
  Conv1D.activation (PointWiseFFN.conv1d_2 self) = relu /\
  conv_ok (PointWiseFFN.conv1d_1 self) c dm /\
  conv_ok (PointWiseFFN.conv1d_2 self) dm dm.


(** An encoder layer of width [h * dp] with [h] heads. *)
Definition layer_ok (self : SASEncoderLayer.t) (h dp : nat) : Prop :=
  mha_ok (SASEncoderLayer.mha self) h dp (h * dp) (h * dp) (h * dp) /\
  ffn_ok (SASEncoderLayer.ffn self) (h * dp) (h * dp) /\
  ln_ok (SASEncoderLayer.layernorm1 self) (h * dp) /\
  ln_ok (SASEncoderLayer.layernorm2 self) (h * dp).

(** Layer normalisation of one feature row, as the framework defines it. *)
Definition layer_norm_entry (l : LayerNormalization.t) (x : tensor R)
           (row : list nat) (j : nat) : R :=
  let n := last (shape x) 0 in
  ((rget x (row ++ [j]) - LayerNormalization.mean n x row)
   / sqrt (LayerNormalization.variance n x row + LayerNormalization.epsilon l)
   * rget (LayerNormalization.gamma l) [j]
   + rget (LayerNormalization.beta l) [j])%R.

Definition emb_ok (l : Embedding.t) (rows cols : nat) : Prop :=
  Embedding.input_dim l = Z.of_nat rows /\
  Embedding.output_dim l = Z.of_nat cols /\
  shape (Embedding.embeddings l) = [rows; cols].

(** An encoder of [n] layers of width [h * dp], for a vocabulary of [vocab]
    identifiers and sequences of at most [max_len] positions. *)
Definition encoder_ok (self : SASEncoder.t) (vocab max_len h dp n : nat) : Prop :=
  SASEncoder.d_model self = Z.of_nat (h * dp) /\
  SASEncoder.num_layers self = Z.of_nat n /\
  length (SASEncoder.enc_layers self) = n /\
  Forall (fun l => layer_ok l h dp) (SASEncoder.enc_layers self) /\
  emb_ok (SASEncoder.embedding self) vocab (h * dp) /\
  emb_ok (SASEncoder.pos_embedding self) max_len (h * dp).







(** ** Small concrete values, used to instantiate the statements below *)

Definition sample_kernel : tensor R := mkTensor [1; 1] [1%R].
Definition sample_bias : tensor R := mkTensor [1] [0%R].
Definition sample_dense_weights : dense_weights :=
  mkDenseW sample_kernel sample_bias.
Definition sample_mha_weights : MultiHeadAttention.weights :=
  MultiHeadAttention.mkWeights sample_dense_weights sample_dense_weights
    sample_dense_weights sample_dense_weights.
Definition sample_dense : Dense.t := new_dense 1 sample_dense_weights.
Definition sample_mha : MultiHeadAttention.t :=
  MultiHeadAttention.mk 1 1 1 sample_dense sample_dense sample_dense
    sample_dense.
Definition sample_input : tensor R := mkTensor [1; 1; 1] [1%R].

Definition sample_conv_kernel : tensor R := mkTensor [1; 1; 1] [1%R].
Definition sample_ffn_weights : PointWiseFFN.weights :=
  PointWiseFFN.mkWeights (mkDenseW sample_conv_kernel sample_bias)
                         (mkDenseW sample_conv_kernel sample_bias).
Definition sample_ln : LayerNormalization.t :=
  LayerNormalization.mk (1 / 1000000)%R (mkTensor [1] [1%R]) sample_bias.
Definition sample_layer_noise : SASEncoderLayer.noise :=
  SASEncoderLayer.mkNoise (fun _ => true) (fun _ => true) (fun _ => true).


(** ** The merge of the heads

    Lines 88-92 of [MultiHeadAttention.call], as a function of their own:
    the transposition back and the flattening of the head axes. *)
Definition merge_heads (self : MultiHeadAttention.t) (x : tensor R)
           (batch_size : nat) : result (tensor R) :=
  x <- transpose 0%R x [0; 2; 1; 3] ;;
  reshape x [Z.of_nat batch_size; (-1)%Z; MultiHeadAttention.d_model self].

Definition sample_layer_weights : SASEncoderLayer.weights :=
  SASEncoderLayer.mkWeights sample_mha_weights sample_ffn_weights
    (mkTensor [1] [1%R]) sample_bias (mkTensor [1] [1%R]) sample_bias.

Definition sample_layer_rate0 : SASEncoderLayer.t :=
  SASEncoderLayer.mk sample_mha
    (PointWiseFFN.init 1 0%R sample_ffn_weights)
    sample_ln sample_ln (Dropout.mk 0%R) (Dropout.mk 0%R).


(* ================================================================== *)
(** * Part II.  Properties *)
(* ================================================================== *)

(** ** Index arithmetic *)

Section Indexing.

Lemma numel_app (a b : list nat) : numel (a ++ b) = numel a * numel b.
Proof.
  induction a as [|x a IH]; simpl.
  - lia.
  - rewrite IH. lia.
Qed.

Lemma in_bounds_length (sh idx : list nat) :
  in_bounds sh idx -> length idx = length sh.
Proof. intros H. induction H; simpl; congruence. Qed.

Lemma in_bounds_app (sh1 sh2 i1 i2 : list nat) :
  in_bounds sh1 i1 -> in_bounds sh2 i2 -> in_bounds (sh1 ++ sh2) (i1 ++ i2).
Proof. intros H1 H2. apply Forall2_app; assumption. Qed.

Lemma ravel_lt (sh idx : list nat) :
  in_bounds sh idx -> ravel sh idx < numel sh.
Proof.
  intros H. induction H as [|i n idx sh Hi _ IH]; simpl.
  - lia.
  - nia.
Qed.

Lemma unravel_ravel (sh idx : list nat) :
  in_bounds sh idx -> unravel sh (ravel sh idx) = idx.
Proof.
  intros H. induction H as [|i n idx sh Hi Hrest IH]; simpl.
  - reflexivity.
  - pose proof (ravel_lt _ _ Hrest) as Hlt.
    assert (Hn : numel sh <> 0) by lia.
    rewrite Nat.div_add_l by exact Hn.
    rewrite (Nat.div_small _ _ Hlt), Nat.add_0_r.
    rewrite Nat.add_comm, Nat.Div0.mod_add.
    rewrite (Nat.mod_small _ _ Hlt), IH. reflexivity.
Qed.

Lemma unravel_in_bounds (sh : list nat) :
  forall k, k < numel sh -> in_bounds sh (unravel sh k).
Proof.
  induction sh as [|n sh IH]; intros k Hk; simpl in *.
  - constructor.
  - assert (Hn : numel sh <> 0) by nia.
    constructor.
    + apply Nat.Div0.div_lt_upper_bound. lia.
    + apply IH. apply Nat.mod_upper_bound. exact Hn.
Qed.

Lemma ravel_unravel (sh : list nat) :
  forall k, k < numel sh -> ravel sh (unravel sh k) = k.
Proof.
  induction sh as [|n sh IH]; intros k Hk; simpl in *.
  - lia.
  - assert (Hn : numel sh <> 0) by nia.
    rewrite IH by (apply Nat.mod_upper_bound; exact Hn).
    pose proof (Nat.div_mod_eq k (numel sh)). lia.
Qed.

End Indexing.

(** ** Tabulated tensors *)

Section Tabulate.

Context {A : Type}.

Lemma shape_tabulate (sh : list nat) (f : list nat -> A) :
  shape (tabulate sh f) = sh.
Proof. reflexivity. Qed.

Lemma wf_tabulate (sh : list nat) (f : list nat -> A) : wf (tabulate sh f).
Proof. unfold wf, tabulate. simpl. rewrite length_map, length_seq. reflexivity. Qed.

Lemma get_tabulate (d : A) (sh : list nat) (f : list nat -> A) (idx : list nat) :
  in_bounds sh idx -> get d (tabulate sh f) idx = f idx.
Proof.
  intros H. unfold get, tabulate. simpl.
  pose proof (ravel_lt _ _ H) as Hlt.
  rewrite (nth_indep _ d (f (unravel sh 0)))
    by (rewrite length_map, length_seq; exact Hlt).
  rewrite (map_nth (fun k => f (unravel sh k))).
  rewrite seq_nth by exact Hlt. simpl.
  rewrite unravel_ravel by exact H. reflexivity.
Qed.

(** A well-formed tensor is determined by its shape and its entries. *)
Lemma tensor_ext (d : A) (t1 t2 : tensor A) :
  wf t1 -> wf t2 -> shape t1 = shape t2 ->
  (forall idx, in_bounds (shape t1) idx -> get d t1 idx = get d t2 idx) ->
  t1 = t2.
Proof.
  destruct t1 as [s1 d1], t2 as [s2 d2]. unfold wf, get. simpl.
  intros W1 W2 Hs Hget. subst s2. f_equal.
  apply (nth_ext _ _ d d); [congruence|].
  intros k Hk. rewrite W1 in Hk.
  specialize (Hget (unravel s1 k) (unravel_in_bounds _ _ Hk)).
  rewrite ravel_unravel in Hget by exact Hk. exact Hget.
Qed.

End Tabulate.

(** ** Sums *)

Section Sums.

Local Open Scope R_scope.

Lemma sum_n_ext (n : nat) (f g : nat -> R) :
  (forall i, (i < n)%nat -> f i = g i) -> sum_n n f = sum_n n g.
Proof.
  intros H. unfold sum_n. f_equal. apply map_ext_in.
  intros i Hi. apply in_seq in Hi. apply H. lia.
Qed.

Lemma sum_n_S (n : nat) (f : nat -> R) : sum_n (S n) f = sum_n n f + f n.
Proof.
  unfold sum_n. rewrite seq_S, map_app. simpl.
  generalize (map f (seq 0 n)). intros l.
  induction l as [|x l IH]; simpl.
  - lra.
  - rewrite IH. lra.
Qed.

Lemma sum_n_0 (f : nat -> R) : sum_n 0 f = 0.
Proof. reflexivity. Qed.


Lemma sum_n_nonneg (n : nat) (f : nat -> R) :
  (forall i, (i < n)%nat -> 0 <= f i) -> 0 <= sum_n n f.
Proof.
  induction n as [|n IH]; intros H.
  - rewrite sum_n_0. lra.
  - rewrite sum_n_S.
    assert (0 <= sum_n n f) by (apply IH; intros; apply H; lia).
    assert (0 <= f n) by (apply H; lia). lra.
Qed.

(** A sum of non-negative terms dominates each of them. *)
Lemma sum_n_ge_term (n : nat) (f : nat -> R) (j : nat) :
  (forall i, (i < n)%nat -> 0 <= f i) -> (j < n)%nat -> f j <= sum_n n f.
Proof.
  induction n as [|n IH]; intros H Hj.
  - lia.
  - rewrite sum_n_S.
    assert (Hs : 0 <= sum_n n f) by (apply sum_n_nonneg; intros; apply H; lia).
    assert (Hn : 0 <= f n) by (apply H; lia).
    destruct (Nat.eq_dec j n) as [->|Hne].
    + lra.
    + assert (f j <= sum_n n f) by (apply IH; [intros; apply H|]; lia). lra.
Qed.

Lemma sum_n_pos (n : nat) (f : nat -> R) :
  (0 < n)%nat -> (forall i, (i < n)%nat -> 0 < f i) -> 0 < sum_n n f.
Proof.
  intros Hn H.
  assert (f 0%nat <= sum_n n f).
  { apply sum_n_ge_term; [|exact Hn]. intros i Hi. left. apply H, Hi. }
  specialize (H 0%nat Hn). lra.
Qed.

End Sums.

(** ** Broadcasting *)

Section Broadcasting.

Lemma broadcast_dim_refl (x : nat) : broadcast_dim x x = Ok x.
Proof. unfold broadcast_dim. rewrite Nat.eqb_refl. reflexivity. Qed.

Lemma broadcast_rev_refl (a : list nat) : broadcast_rev a a = Ok a.
Proof.
  induction a as [|x a IH]; simpl.
  - reflexivity.
  - rewrite IH. simpl. rewrite broadcast_dim_refl. reflexivity.
Qed.

Lemma broadcast_shapes_refl (a : list nat) : broadcast_shapes a a = Ok a.
Proof.
  unfold broadcast_shapes. rewrite broadcast_rev_refl. simpl.
  rewrite rev_involutive. reflexivity.
Qed.

Lemma broadcast_rev_nil_r (a : list nat) : broadcast_rev a [] = Ok a.
Proof. destruct a; reflexivity. Qed.

Lemma broadcast_shapes_nil_r (a : list nat) : broadcast_shapes a [] = Ok a.
Proof.
  unfold broadcast_shapes. simpl (rev []).
  rewrite broadcast_rev_nil_r. simpl.
  rewrite rev_involutive. reflexivity.
Qed.

Lemma clamp_idx_id (sh idx : list nat) :
  in_bounds sh idx -> clamp_idx sh idx = idx.
Proof.
  intros H. induction H as [|i n idx sh Hi _ IH]; simpl.
  - reflexivity.
  - rewrite IH. destruct (Nat.eqb_spec n 1) as [->|_].
    + f_equal. lia.
    + reflexivity.
Qed.

Lemma bcast_index_id (sh idx : list nat) :
  in_bounds sh idx -> bcast_index sh idx = idx.
Proof.
  intros H. unfold bcast_index.
  rewrite (in_bounds_length _ _ H), Nat.sub_diag. simpl.
  apply clamp_idx_id, H.
Qed.

Lemma bcast_index_nil (idx : list nat) : bcast_index [] idx = [].
Proof. reflexivity. Qed.

Lemma split_last2_app (pre : list nat) (m n : nat) :
  split_last2 (pre ++ [m; n]) = Ok (pre, m, n).
Proof.
  unfold split_last2. rewrite rev_app_distr. simpl.
  rewrite rev_involutive. reflexivity.
Qed.

Lemma rev_app2 (pre : list nat) (m n : nat) :
  rev (pre ++ [m; n]) = n :: m :: rev pre.
Proof. rewrite rev_app_distr. reflexivity. Qed.

Lemma in_bounds_app2 (pre bi : list nat) (m n i j : nat) :
  in_bounds pre bi -> i < m -> j < n -> in_bounds (pre ++ [m; n]) (bi ++ [i; j]).
Proof.
  intros H Hi Hj. apply in_bounds_app; [exact H|].
  repeat constructor; assumption.
Qed.

Lemma in_bounds_app2_inv (pre : list nat) (m n : nat) (idx : list nat) :
  in_bounds (pre ++ [m; n]) idx ->
  exists bi i j, idx = bi ++ [i; j] /\ in_bounds pre bi /\ i < m /\ j < n.
Proof.
  intros H. apply Forall2_app_inv_r in H.
  destruct H as (bi & tl & Hbi & Htl & ->).
  inversion Htl as [|i m' tl1 sh1 Hi Htl1]; subst.
  inversion Htl1 as [|j n' tl2 sh2 Hj Htl2]; subst.
  inversion Htl2; subst.
  exists bi, i, j. repeat split; assumption.
Qed.

Lemma removelast_app2 (bi : list nat) (i j : nat) :
  removelast (bi ++ [i; j]) = bi ++ [i].
Proof.
  rewrite removelast_app by discriminate. reflexivity.
Qed.

Lemma last_app2 (bi : list nat) (i j d : nat) : last (bi ++ [i; j]) d = j.
Proof.
  induction bi as [|b bi IH]; simpl.
  - reflexivity.
  - destruct (bi ++ [i; j]) eqn:E.
    + destruct bi; discriminate.
    + exact IH.
Qed.

End Broadcasting.

Section BroadcastTo.

(** When broadcasting [b] against [a] gives back the shape of [a], every
    index of [a] is mapped inside [b]. *)

Lemma broadcast_dim_fits (x y : nat) : broadcast_dim x y = Ok x -> fits x y.
Proof.
  unfold broadcast_dim, fits.
  destruct (Nat.eqb_spec x y) as [->|Hxy]; [auto|].
  destruct (Nat.eqb_spec x 1) as [->|Hx].
  - intros [= ->]. auto.
  - destruct (Nat.eqb_spec y 1) as [->|Hy]; [auto|discriminate].
Qed.

Lemma broadcast_rev_fits (ra : list nat) :
  forall rb, broadcast_rev ra rb = Ok ra ->
  exists r1 r2, ra = r1 ++ r2 /\ Forall2 fits r1 rb.
Proof.
  induction ra as [|x ra IH]; intros rb H.
  - simpl in H. injection H as ->. exists [], []. split; [reflexivity|constructor].
  - destruct rb as [|y rb].
    + exists [], (x :: ra). split; [reflexivity|constructor].
    + simpl in H.
      destruct (broadcast_rev ra rb) as [r|] eqn:Er; [|discriminate].
      simpl in H.
      destruct (broadcast_dim x y) as [z|] eqn:Ez; [|discriminate].
      simpl in H. injection H as -> ->.
      destruct (IH _ Er) as (r1 & r2 & E & F).
      exists (x :: r1), r2. split.
      * simpl. congruence.
      * constructor; [apply broadcast_dim_fits, Ez|exact F].
Qed.

Lemma Forall2_rev_fits (l1 l2 : list nat) :
  Forall2 fits l1 l2 -> Forall2 fits (rev l1) (rev l2).
Proof.
  intros H. induction H; simpl.
  - constructor.
  - apply Forall2_app; [assumption|]. constructor; [assumption|constructor].
Qed.

Lemma broadcast_shapes_fits (a b : list nat) :
  broadcast_shapes a b = Ok a ->
  exists a1 a2, a = a1 ++ a2 /\ Forall2 fits a2 b.
Proof.
  unfold broadcast_shapes. intros H.
  destruct (broadcast_rev (rev a) (rev b)) as [r|] eqn:Er; [|discriminate].
  simpl in H. injection H as H.
  assert (r = rev a) by (rewrite <- H, rev_involutive; reflexivity). subst r.
  destruct (broadcast_rev_fits _ _ Er) as (r1 & r2 & E & F).
  exists (rev r2), (rev r1). split.
  - rewrite <- rev_app_distr, <- E, rev_involutive. reflexivity.
  - apply Forall2_rev_fits in F. rewrite rev_involutive in F. exact F.
Qed.

Lemma clamp_idx_fits (a2 b i2 : list nat) :
  Forall2 fits a2 b -> in_bounds a2 i2 -> in_bounds b (clamp_idx b i2).
Proof.
  intros F. revert i2. induction F as [|x y a2 b Hxy _ IH]; intros i2 Hi.
  - inversion Hi. constructor.
  - inversion Hi as [|i x' i2' a2' Hix Hrest]; subst. simpl.
    constructor; [|apply IH, Hrest].
    destruct (Nat.eqb_spec y 1) as [->|Hy]; [lia|].
    destruct Hxy as [->| ->]; [exact Hix|contradiction].
Qed.

Lemma bcast_index_in_bounds (a b idx : list nat) :
  broadcast_shapes a b = Ok a -> in_bounds a idx ->
  in_bounds b (bcast_index b idx).
Proof.
  intros H Hi.
  destruct (broadcast_shapes_fits _ _ H) as (a1 & a2 & -> & F).
  apply Forall2_app_inv_r in Hi.
  destruct Hi as (i1 & i2 & H1 & H2 & ->).
  unfold bcast_index.
  pose proof (Forall2_length F) as L.
  pose proof (in_bounds_length _ _ H1) as L1.
  pose proof (in_bounds_length _ _ H2) as L2.
  rewrite length_app.
  replace (length i1 + length i2 - length b) with (length i1 + 0) by lia.
  rewrite skipn_app, Nat.add_0_r, skipn_all, Nat.sub_diag. simpl.
  eapply clamp_idx_fits; eassumption.
Qed.

End BroadcastTo.

(** ** Framework operators, entry by entry *)

Section Operators.

Local Open Scope R_scope.

Lemma matmul_spec (pre : list nat) (m n p : nat) (a b : tensor R) (tb : bool) :
  shape a = pre ++ [m; n] ->
  shape b = pre ++ (if tb then [p; n] else [n; p]) ->
  exists c, matmul a b tb = Ok c /\ shape c = pre ++ [m; p] /\ wf c /\
    forall bi i j, in_bounds pre bi -> (i < m)%nat -> (j < p)%nat ->
      rget c (bi ++ [i; j]) =
      sum_n n (fun d => rget a (bi ++ [i; d]) *
                        rget b (bi ++ (if tb then [j; d] else [d; j]))).
Proof.
  intros Ha Hb. unfold matmul. rewrite Ha, Hb, split_last2_app. simpl.
  assert (E : split_last2 (pre ++ (if tb then [p; n] else [n; p])) =
              Ok (pre, if tb then p else n, if tb then n else p)).
  { destruct tb; apply split_last2_app. }
  rewrite E. simpl.
  destruct tb; rewrite Nat.eqb_refl, broadcast_shapes_refl; simpl;
    (eexists; split; [reflexivity|]; split; [reflexivity|];
     split; [apply wf_tabulate|]);
    intros bi i j Hbi Hi Hj; unfold rget;
    rewrite get_tabulate by (apply in_bounds_app2; assumption);
    rewrite split_last2_app; apply sum_n_ext; intros d Hd;
    rewrite !bcast_index_id by assumption; reflexivity.
Qed.

Lemma broadcast_scalar_spec (f : R -> R -> R) (a : tensor R) (c : R) :
  exists r, broadcast_op f a (scalar c) = Ok r /\ shape r = shape a /\ wf r /\
    forall idx, in_bounds (shape a) idx -> rget r idx = f (rget a idx) c.
Proof.
  unfold broadcast_op. simpl (shape (scalar c)).
  rewrite broadcast_shapes_nil_r. simpl.
  eexists; split; [reflexivity|]; split; [reflexivity|];
    split; [apply wf_tabulate|].
  intros idx Hi. unfold rget. rewrite get_tabulate by exact Hi.
  rewrite bcast_index_id by exact Hi. reflexivity.
Qed.

Lemma broadcast_to_spec (f : R -> R -> R) (a b : tensor R) :
  broadcast_shapes (shape a) (shape b) = Ok (shape a) ->
  exists r, broadcast_op f a b = Ok r /\ shape r = shape a /\ wf r /\
    forall idx, in_bounds (shape a) idx ->
      rget r idx = f (rget a idx) (rget b (bcast_index (shape b) idx)).
Proof.
  intros H. unfold broadcast_op. rewrite H. simpl.
  eexists; split; [reflexivity|]; split; [reflexivity|];
    split; [apply wf_tabulate|].
  intros idx Hi. unfold rget. rewrite get_tabulate by exact Hi.
  rewrite bcast_index_id by exact Hi. reflexivity.
Qed.

Lemma broadcast_same_spec (f : R -> R -> R) (a b : tensor R) :
  shape a = shape b ->
  exists r, broadcast_op f a b = Ok r /\ shape r = shape a /\ wf r /\
    forall idx, in_bounds (shape a) idx ->
      rget r idx = f (rget a idx) (rget b idx).
Proof.
  intros H.
  destruct (broadcast_to_spec f a b) as (r & E & Hs & W & G).
  { rewrite <- H. apply broadcast_shapes_refl. }
  exists r. repeat split; try assumption.
  intros idx Hi. rewrite (G idx Hi), <- H, bcast_index_id by exact Hi.
  reflexivity.
Qed.

Lemma softmax_spec (pre : list nat) (n : nat) (x : tensor R) :
  shape x = pre ++ [n] ->
  exists w, softmax x = Ok w /\ shape w = pre ++ [n] /\ wf w /\
    forall bi j, in_bounds pre bi -> (j < n)%nat ->
      rget w (bi ++ [j]) =
      exp (rget x (bi ++ [j])) / sum_n n (fun j' => exp (rget x (bi ++ [j']))).
Proof.
  intros H. unfold softmax. rewrite H, rev_app_distr. simpl.
  eexists; split; [reflexivity|]; split; [reflexivity|];
    split; [apply wf_tabulate|].
  intros bi j Hbi Hj. unfold rget.
  rewrite get_tabulate by (apply in_bounds_app; [exact Hbi|repeat constructor; exact Hj]).
  rewrite removelast_last. reflexivity.
Qed.

End Operators.

(** ** Scaled dot-product attention *)

Section Attention.

Local Open Scope R_scope.

Lemma app_last2 (pre : list nat) (i j : nat) :
  pre ++ [i; j] = (pre ++ [i]) ++ [j].
Proof. rewrite <- app_assoc. reflexivity. Qed.

(** The logits handed to the softmax are the scaled scores, plus the mask
    penalty when a mask is given. *)
Lemma attention_logits (pre : list nat) (sq sk depth : nat)
      (q k sc : tensor R) (mask : option (tensor R)) :
  shape sc = pre ++ [sq; sk] ->
  (forall bi i j, in_bounds pre bi -> (i < sq)%nat -> (j < sk)%nat ->
     rget sc (bi ++ [i; j]) = spec_logit q k None depth bi i j) ->
  (forall m, mask = Some m ->
     broadcast_shapes (pre ++ [sq; sk]) (shape m) = Ok (pre ++ [sq; sk])) ->
  exists lg,
    match mask with
    | Some m =>
        penalty <- broadcast_op Rmult m (scalar (- 1000000000)) ;;
        broadcast_op Rplus sc penalty
    | None => Ok sc
    end = Ok lg /\
    shape lg = pre ++ [sq; sk] /\
    forall bi i j, in_bounds pre bi -> (i < sq)%nat -> (j < sk)%nat ->
      rget lg (bi ++ [i; j]) = spec_logit q k mask depth bi i j.
Proof.
  intros S G Hm. destruct mask as [m|].
  - destruct (broadcast_scalar_spec Rmult m (- 1000000000))
      as (pen & E & Sp & _ & Gp).
    rewrite E. simpl.
    specialize (Hm m eq_refl).
    destruct (broadcast_to_spec Rplus sc pen) as (lg & El & Sl & _ & Gl).
    { rewrite S, Sp. exact Hm. }
    exists lg. split; [exact El|]. split; [congruence|].
    intros bi i j Hbi Hi Hj.
    assert (Hin : in_bounds (pre ++ [sq; sk]) (bi ++ [i; j]))
      by (apply in_bounds_app2; assumption).
    rewrite Gl by (rewrite S; exact Hin).
    rewrite Sp, Gp by (eapply bcast_index_in_bounds; eassumption).
    rewrite G by assumption. reflexivity.
  - exists sc. split; [reflexivity|]. split; [exact S|exact G].
Qed.

(** The result of [scaled_dot_product_attention], entry by entry. *)
Lemma sdpa_entries
        (pre : list nat) (sq sk depth dv : nat)
        (q k v : tensor R) (mask : option (tensor R)) :
  shape q = pre ++ [sq; depth] ->
  shape k = pre ++ [sk; depth] ->
  shape v = pre ++ [sk; dv] ->
  (forall m, mask = Some m ->
     broadcast_shapes (pre ++ [sq; sk]) (shape m) = Ok (pre ++ [sq; sk])) ->
  exists output attention_weights,
    scaled_dot_product_attention q k v mask = Ok (output, attention_weights) /\
    shape attention_weights = pre ++ [sq; sk] /\ wf attention_weights /\
    shape output = pre ++ [sq; dv] /\ wf output /\
    (forall bi i j, in_bounds pre bi -> (i < sq)%nat -> (j < sk)%nat ->
       rget attention_weights (bi ++ [i; j]) =
       spec_weight q k mask depth sk bi i j) /\
    (forall bi i c, in_bounds pre bi -> (i < sq)%nat -> (c < dv)%nat ->
       rget output (bi ++ [i; c]) =
       spec_attention q k v mask depth sk bi i c).
Proof.
  intros Hq Hk Hv Hm. unfold scaled_dot_product_attention.
  destruct (matmul_spec pre sq depth sk q k true Hq Hk)
    as (qk & E1 & S1 & _ & G1).
  rewrite E1. simpl.
  unfold shape_last. rewrite Hk, rev_app2. simpl.
  change (tf_sqrt (cast_float depth)) with (scalar (sqrt (INR depth))).
  destruct (broadcast_scalar_spec Rdiv qk (sqrt (INR depth)))
    as (sc & E2 & S2 & _ & G2).
  rewrite E2. simpl.
  destruct (attention_logits pre sq sk depth q k sc mask)
    as (lg & E3 & S3 & G3); [congruence| |exact Hm|].
  { intros bi i j Hbi Hi Hj.
    rewrite G2 by (rewrite S1; apply in_bounds_app2; assumption).
    rewrite G1 by assumption. reflexivity. }
  rewrite E3. simpl.
  destruct (softmax_spec (pre ++ [sq]) sk lg) as (w & E4 & S4 & W4 & G4).
  { rewrite S3. apply app_last2. }
  rewrite E4. simpl.
  rewrite <- app_last2 in S4.
  destruct (matmul_spec pre sq sk dv w v false S4 Hv)
    as (out & E5 & S5 & W5 & G5).
  rewrite E5. simpl.
  assert (Gw : forall bi i j,
             in_bounds pre bi -> (i < sq)%nat -> (j < sk)%nat ->
             rget w (bi ++ [i; j]) = spec_weight q k mask depth sk bi i j).
  { intros bi i j Hbi Hi Hj. rewrite app_last2.
    rewrite G4
      by (try apply in_bounds_app; try assumption; repeat constructor; assumption).
    unfold spec_weight. rewrite <- app_last2, G3 by assumption.
    f_equal. apply sum_n_ext. intros j' Hj'.
    rewrite <- app_last2, G3 by assumption. reflexivity. }
  exists out, w. repeat split; try assumption.
  intros bi i c Hbi Hi Hc. rewrite G5 by assumption.
  unfold spec_attention. apply sum_n_ext. intros j Hj.
  rewrite Gw by assumption. reflexivity.
Qed.

(** C1.  For query, key and value tensors with matching leading axes, a
    common depth and as many values as keys, and an optional mask that
    broadcasts to the shape of the scores, [scaled_dot_product_attention]
    returns the softmax over the key axis of the scaled scores (plus
    [mask * -1e9] when a mask is given, and nothing when it is not),
    multiplied by the values, together with those softmax weights. *)
Theorem scaled_dot_product_attention_spec
        (pre : list nat) (sq sk depth dv : nat)
        (q k v : tensor R) (mask : option (tensor R)) :
  shape q = pre ++ [sq; depth] ->
  shape k = pre ++ [sk; depth] ->
  shape v = pre ++ [sk; dv] ->
  (forall m, mask = Some m ->
     broadcast_shapes (pre ++ [sq; sk]) (shape m) = Ok (pre ++ [sq; sk])) ->
  exists output attention_weights,
    scaled_dot_product_attention q k v mask = Ok (output, attention_weights) /\
    shape attention_weights = pre ++ [sq; sk] /\ wf attention_weights /\
    shape output = pre ++ [sq; dv] /\ wf output /\
    (forall bi i j, in_bounds pre bi -> (i < sq)%nat -> (j < sk)%nat ->
       rget attention_weights (bi ++ [i; j]) =
       spec_weight q k mask depth sk bi i j) /\
    (forall bi i c, in_bounds pre bi -> (i < sq)%nat -> (c < dv)%nat ->
       rget output (bi ++ [i; c]) =
       spec_attention q k v mask depth sk bi i c).
Proof. exact (sdpa_entries pre sq sk depth dv q k v mask). Qed.

Lemma scaled_dot_product_attention_witness :
  exists output attention_weights,
    scaled_dot_product_attention
      (mkTensor [1%nat; 1%nat] [1]) (mkTensor [2%nat; 1%nat] [1; 0])
      (mkTensor [2%nat; 1%nat] [1; 1])
      (Some (mkTensor [1%nat; 2%nat] [0; 1])) = Ok (output, attention_weights) /\
    shape attention_weights = [1%nat; 2%nat] /\
    shape output = [1%nat; 1%nat].
Proof.
  destruct (scaled_dot_product_attention_spec [] 1 2 1 1
              (mkTensor [1%nat; 1%nat] [1]) (mkTensor [2%nat; 1%nat] [1; 0])
              (mkTensor [2%nat; 1%nat] [1; 1])
              (Some (mkTensor [1%nat; 2%nat] [0; 1])))
    as (out & w & E & Sw & _ & So & _); try reflexivity.
  - intros m [= <-]. reflexivity.
  - exists out, w. repeat split; assumption.
Defined.

End Attention.

(** ** Numerical behaviour of the attention weights *)

Section Numerics.

Local Open Scope R_scope.







Lemma exp_le_mono (x y : R) : x <= y -> exp x <= exp y.
Proof.
  intros [H| ->]; [left; apply exp_increasing, H|right; reflexivity].
Qed.









End Numerics.

(** ** Dense projections, reshapes and transpositions *)

Section Layout.

Local Open Scope R_scope.

(** The entry of a projection of the last axis, as the specification
    words it: a weighted sum over the input features plus a bias. *)
Lemma dense_spec (l : Dense.t) (pre : list nat) (m c u : nat) (x : tensor R) :
  shape x = pre ++ [m; c] ->
  Z.to_nat (Dense.units l) = u ->
  shape (Dense.kernel l) = [c; u] ->
  shape (Dense.bias l) = [u] ->
  exists y, Dense.call l x = Ok y /\ shape y = pre ++ [m; u] /\ wf y /\
    forall bi i f, in_bounds pre bi -> (i < m)%nat -> (f < u)%nat ->
      rget y (bi ++ [i; f]) =
      sum_n c (fun c' => rget x (bi ++ [i; c']) * rget (Dense.kernel l) [c'; f])
      + rget (Dense.bias l) [f].
Proof.
  intros Hx Hu Hk Hb. unfold Dense.call.
  rewrite Hx, rev_app2, Hu, Hk, Hb. unfold shape_eqb.
  destruct (list_eq_dec Nat.eq_dec [c; u] [c; u]) as [_|N]; [|contradiction].
  destruct (list_eq_dec Nat.eq_dec [u] [u]) as [_|N]; [|contradiction].
  simpl andb. cbv iota.
  assert (Es : rev (m :: rev pre) ++ [u] = pre ++ [m; u]).
  { simpl. rewrite rev_involutive, <- app_assoc. reflexivity. }
  rewrite Es.
  eexists; split; [reflexivity|]; split; [reflexivity|];
    split; [apply wf_tabulate|].
  intros bi i f Hbi Hi Hf. unfold rget.
  rewrite get_tabulate by (apply in_bounds_app2; assumption).
  rewrite removelast_app2, last_app2.
  f_equal. apply sum_n_ext. intros c' _.
  rewrite <- app_assoc. reflexivity.
Qed.

Lemma of_nat_ltb_m1 (n : nat) : (Z.of_nat n <? -1)%Z = false.
Proof. apply Z.ltb_ge. lia. Qed.

Lemma of_nat_eqb_m1 (n : nat) : (Z.of_nat n =? -1)%Z = false.
Proof. apply Z.eqb_neq. lia. Qed.

Lemma count_m1_of_nat (n : nat) (l : list Z) :
  count_occ Z.eq_dec (Z.of_nat n :: l) (-1)%Z = count_occ Z.eq_dec l (-1)%Z.
Proof. apply count_occ_cons_neq. lia. Qed.

(** The reshape of [split_heads]: the feature axis is cut into heads. *)
Lemma reshape_split (x : tensor R) (b s h dp : nat) :
  (0 < b)%nat -> (0 < h)%nat -> (0 < dp)%nat ->
  shape x = [b; s; h * dp]%nat ->
  reshape x [Z.of_nat b; (-1)%Z; Z.of_nat h; Z.of_nat dp] =
  Ok (mkTensor [b; s; h; dp] (data x)).
Proof.
  intros Hb Hh Hdp Hx. unfold reshape.
  cbn [existsb]. rewrite !of_nat_ltb_m1.
  change (-1 <? -1)%Z with false. cbn [orb].
  rewrite count_m1_of_nat, count_occ_cons_eq by reflexivity.
  rewrite !count_m1_of_nat. cbn [count_occ].
  cbn [filter]. rewrite !of_nat_eqb_m1. cbn [negb Z.eqb Pos.eqb map].
  rewrite !Nat2Z.id, Hx.
  assert (Ek : numel [b; h; dp] = (b * (h * dp))%nat) by (simpl; lia).
  assert (Et : numel [b; s; (h * dp)%nat] = (s * (b * (h * dp)))%nat)
    by (simpl; lia).
  rewrite Ek, Et.
  assert (Hpos : (b * (h * dp) <> 0)%nat) by nia.
  destruct (Nat.eqb_spec (b * (h * dp)) 0) as [E0|_]; [contradiction|].
  rewrite Nat.Div0.mod_mul, Nat.eqb_refl, Nat.div_mul by exact Hpos.
  rewrite ?of_nat_eqb_m1. reflexivity.
Qed.

(** The reshape that merges the heads back into one feature axis. *)
Lemma reshape_merge (x : tensor R) (b s h dp : nat) :
  (0 < b)%nat -> (0 < h)%nat -> (0 < dp)%nat ->
  shape x = [b; s; h; dp] ->
  reshape x [Z.of_nat b; (-1)%Z; Z.of_nat (h * dp)] =
  Ok (mkTensor [b; s; h * dp]%nat (data x)).
Proof.
  intros Hb Hh Hdp Hx. unfold reshape.
  cbn [existsb]. rewrite !of_nat_ltb_m1.
  change (-1 <? -1)%Z with false. cbn [orb].
  rewrite count_m1_of_nat, count_occ_cons_eq by reflexivity.
  rewrite !count_m1_of_nat. cbn [count_occ].
  cbn [filter]. rewrite !of_nat_eqb_m1. cbn [negb Z.eqb Pos.eqb map].
  rewrite !Nat2Z.id, Hx.
  assert (Ek : numel [b; (h * dp)%nat] = (b * (h * dp))%nat) by (simpl; lia).
  assert (Et : numel [b; s; h; dp] = (s * (b * (h * dp)))%nat) by (simpl; lia).
  rewrite Ek, Et.
  assert (Hpos : (b * (h * dp) <> 0)%nat) by nia.
  destruct (Nat.eqb_spec (b * (h * dp)) 0) as [E0|_]; [contradiction|].
  rewrite Nat.Div0.mod_mul, Nat.eqb_refl, Nat.div_mul by exact Hpos.
  rewrite ?of_nat_eqb_m1. reflexivity.
Qed.

(** [tf.transpose(x, perm=[0, 2, 1, 3])] swaps the two middle axes. *)
Lemma transpose_0213 (x : tensor R) (n0 n1 n2 n3 : nat) :
  shape x = [n0; n1; n2; n3] ->
  exists y, transpose 0 x [0; 2; 1; 3]%nat = Ok y /\
    shape y = [n0; n2; n1; n3] /\ wf y /\
    forall i j k l, (i < n0)%nat -> (j < n2)%nat -> (k < n1)%nat -> (l < n3)%nat ->
      rget y [i; j; k; l] = rget x [i; k; j; l].
Proof.
  intros Hx. unfold transpose. rewrite Hx. simpl.
  eexists; split; [reflexivity|]; split; [reflexivity|];
    split; [apply wf_tabulate|].
  intros i j k l Hi Hj Hk Hl. unfold rget.
  rewrite get_tabulate by (repeat constructor; assumption).
  reflexivity.
Qed.

End Layout.

(** ** Multi-head attention *)

Section MultiHead.

Local Open Scope R_scope.

Lemma dense_ok_entries (l : Dense.t) (b s c u : nat) (x : tensor R) :
  dense_ok l c u -> shape x = [b; s; c] ->
  exists y, Dense.call l x = Ok y /\ shape y = [b; s; u] /\ wf y /\
    forall i p f, (i < b)%nat -> (p < s)%nat -> (f < u)%nat ->
      rget y [i; p; f] = dense_entry l x [i; p] f.
Proof.
  intros (Hu & Hk & Hb) Hx.
  destruct (dense_spec l [b] s c u x Hx Hu Hk Hb) as (y & E & S & W & G).
  exists y. repeat split; try assumption.
  intros i p f Hi Hp Hf.
  assert (Hbi : in_bounds [b] [i]) by (repeat constructor; assumption).
  pose proof (G [i] p f Hbi Hp Hf) as E'. cbn [app] in E'. rewrite E'.
  unfold dense_entry. rewrite Hx. reflexivity.
Qed.

Lemma split_heads_spec (self : MultiHeadAttention.t) (x : tensor R)
      (b s h dp : nat) :
  (0 < b)%nat -> (0 < h)%nat -> (0 < dp)%nat ->
  MultiHeadAttention.num_heads self = Z.of_nat h ->
  MultiHeadAttention.depth self = Z.of_nat dp ->
  shape x = [b; s; h * dp]%nat ->
  exists y, MultiHeadAttention.split_heads self x b = Ok y /\
    shape y = [b; h; s; dp] /\ wf y /\
    forall i a p d, (i < b)%nat -> (a < h)%nat -> (p < s)%nat -> (d < dp)%nat ->
      rget y [i; a; p; d] = rget x [i; p; a * dp + d]%nat.
Proof.
  intros Hb Hh Hdp Hnh Hd Hx. unfold MultiHeadAttention.split_heads.
  rewrite Hnh, Hd, (reshape_split x b s h dp) by assumption. cbn [bind].
  destruct (transpose_0213 (mkTensor [b; s; h; dp] (data x)) b s h dp eq_refl)
    as (y & E & S & W & G).
  exists y. repeat split; try assumption.
  intros i a p d Hi Ha Hp Hd'. rewrite G by assumption.
  unfold rget, get. cbn [shape data]. rewrite Hx.
  f_equal. simpl. ring.
Qed.

(** Merging the heads: entry [c] of the merged feature axis is entry
    [c mod dp] of head [c / dp]. *)
Lemma merge_heads_entry (x : tensor R) (b s h dp i p c : nat) :
  (0 < dp)%nat -> shape x = [b; s; h; dp] ->
  rget (mkTensor [b; s; h * dp]%nat (data x)) [i; p; c] =
  rget x [i; p; c / dp; c mod dp]%nat.
Proof.
  intros Hdp Hx. unfold rget, get. cbn [shape data]. rewrite Hx.
  f_equal.
  pose proof (Nat.div_mod_eq c dp) as Hc.
  set (a := (c / dp)%nat) in *. set (d := (c mod dp)%nat) in *.
  clearbody a d. subst c. simpl. ring.
Qed.

(** The forward pass of a multi-head attention layer. *)
Lemma mha_call_spec (self : MultiHeadAttention.t) (h dp cq ck cv b sq sk : nat)
      (q k v : tensor R) (mask : option (tensor R)) :
  mha_ok self h dp cq ck cv -> (0 < b)%nat ->
  shape q = [b; sq; cq] -> shape k = [b; sk; ck] -> shape v = [b; sk; cv] ->
  (forall m, mask = Some m ->
     broadcast_shapes [b; h; sq; sk] (shape m) = Ok [b; h; sq; sk]) ->
  exists qh kh vh att weights output,
    MultiHeadAttention.call self v k q mask = Ok (output, weights) /\
    heads_of (MultiHeadAttention.wq self) q qh b sq h dp /\
    heads_of (MultiHeadAttention.wk self) k kh b sk h dp /\
    heads_of (MultiHeadAttention.wv self) v vh b sk h dp /\
    scaled_dot_product_attention qh kh vh mask = Ok (att, weights) /\
    shape weights = [b; h; sq; sk] /\
    shape output = [b; sq; h * dp]%nat /\ wf output /\
    forall i p f, (i < b)%nat -> (p < sq)%nat -> (f < h * dp)%nat ->
      rget output [i; p; f] =
      sum_n (h * dp) (fun c =>
        rget att [i; c / dp; p; c mod dp]%nat *
        rget (Dense.kernel (MultiHeadAttention.dense self)) [c; f])
      + rget (Dense.bias (MultiHeadAttention.dense self)) [f].
Proof.
  intros (Hh & Hdp & Hnh & Hd & Hdm & Okq & Okk & Okv & Oko) Hb Hq Hk Hv Hm.
  unfold MultiHeadAttention.call.
  unfold shape_at. rewrite Hq. cbn [nth_error bind].
  destruct (dense_ok_entries _ b sq cq _ q Okq Hq) as (pq & Eq & Sq & _ & Gq).
  destruct (dense_ok_entries _ b sk ck _ k Okk Hk) as (pk & Ek & Sk & _ & Gk).
  destruct (dense_ok_entries _ b sk cv _ v Okv Hv) as (pv & Ev & Sv & _ & Gv).
  rewrite Eq, Ek, Ev. cbn [bind].
  destruct (split_heads_spec self pq b sq h dp Hb Hh Hdp Hnh Hd Sq)
    as (qh & Eqh & Sqh & _ & Gqh).
  destruct (split_heads_spec self pk b sk h dp Hb Hh Hdp Hnh Hd Sk)
    as (kh & Ekh & Skh & _ & Gkh).
  destruct (split_heads_spec self pv b sk h dp Hb Hh Hdp Hnh Hd Sv)
    as (vh & Evh & Svh & _ & Gvh).
  rewrite Eqh, Ekh, Evh. cbn [bind].
  destruct (sdpa_entries [b; h] sq sk dp dp qh kh vh mask Sqh Skh Svh Hm)
    as (att & w & Ea & Sw & _ & Sa & _ & _ & _).
  rewrite Ea. cbn [bind].
  destruct (transpose_0213 att b h sq dp Sa) as (tr & Et & St & _ & Gt).
  rewrite Et. cbn [bind].
  rewrite Hdm, (reshape_merge tr b sq h dp) by assumption. cbn [bind].
  destruct (dense_spec (MultiHeadAttention.dense self) [b] sq (h * dp) (h * dp)
              (mkTensor [b; sq; h * dp]%nat (data tr)) eq_refl
              (proj1 Oko) (proj1 (proj2 Oko)) (proj2 (proj2 Oko)))
    as (out & Eo & So & Wo & Go).
  rewrite Eo. cbn [bind].
  assert (Hdiv : forall c, (c < h * dp)%nat ->
            (c / dp < h)%nat /\ (c mod dp < dp)%nat).
  { intros c Hc. split.
    - apply Nat.Div0.div_lt_upper_bound. lia.
    - apply Nat.mod_upper_bound. lia. }
  exists qh, kh, vh, att, w, out.
  split; [reflexivity|].
  split. { split; [exact Sqh|]. intros i a p d Hi Ha Hp Hd'.
           rewrite Gqh, Gq by (try assumption; nia). reflexivity. }
  split. { split; [exact Skh|]. intros i a p d Hi Ha Hp Hd'.
           rewrite Gkh, Gk by (try assumption; nia). reflexivity. }
  split. { split; [exact Svh|]. intros i a p d Hi Ha Hp Hd'.
           rewrite Gvh, Gv by (try assumption; nia). reflexivity. }
  split; [exact Ea|]. split; [exact Sw|]. split; [exact So|].
  split; [exact Wo|].
  intros i p f Hi Hp Hf.
  assert (Hbi : in_bounds [b] [i]) by (repeat constructor; assumption).
  pose proof (Go [i] p f Hbi Hp Hf) as E'. cbn [app] in E'. rewrite E'.
  f_equal. apply sum_n_ext. intros c Hc.
  destruct (Hdiv c Hc) as [Ha Hd'].
  rewrite (merge_heads_entry tr b sq h dp i p c Hdp St).
  rewrite Gt by assumption. reflexivity.
Qed.





(** C3.  For a well-shaped layer with [h] heads of width [dp] and inputs of
    a common non-empty batch, [MultiHeadAttention.call] projects [q], [k]
    and [v] by its three projections, cuts each projection into heads laid
    out as (batch, head, position, depth), runs
    [scaled_dot_product_attention] once on the three head tensors with the
    given mask, merges the heads back position by position and applies the
    output projection; the output has shape (batch, seq_len_q, d_model) and
    comes with the attention weights of shape
    (batch, heads, seq_len_q, seq_len_k). *)
Theorem multi_head_attention_call_spec
        (self : MultiHeadAttention.t) (h dp cq ck cv b sq sk : nat)
        (q k v : tensor R) (mask : option (tensor R)) :
  mha_ok self h dp cq ck cv -> (0 < b)%nat ->
  shape q = [b; sq; cq] -> shape k = [b; sk; ck] -> shape v = [b; sk; cv] ->
  (forall m, mask = Some m ->
     broadcast_shapes [b; h; sq; sk] (shape m) = Ok [b; h; sq; sk]) ->
  exists qh kh vh att weights output,
    MultiHeadAttention.call self v k q mask = Ok (output, weights) /\
    heads_of (MultiHeadAttention.wq self) q qh b sq h dp /\
    heads_of (MultiHeadAttention.wk self) k kh b sk h dp /\
    heads_of (MultiHeadAttention.wv self) v vh b sk h dp /\
    scaled_dot_product_attention qh kh vh mask = Ok (att, weights) /\
    shape weights = [b; h; sq; sk] /\
    shape output = [b; sq; h * dp]%nat /\ wf output /\
    forall i p f, (i < b)%nat -> (p < sq)%nat -> (f < h * dp)%nat ->
      rget output [i; p; f] =
      sum_n (h * dp) (fun c =>
        rget att [i; c / dp; p; c mod dp]%nat *
        rget (Dense.kernel (MultiHeadAttention.dense self)) [c; f])
      + rget (Dense.bias (MultiHeadAttention.dense self)) [f].
Proof. exact (mha_call_spec self h dp cq ck cv b sq sk q k v mask). Qed.

Lemma sample_mha_ok : mha_ok sample_mha 1 1 1 1 1.
Proof. unfold mha_ok, dense_ok. cbn. repeat split; lia. Defined.

Lemma multi_head_attention_call_witness :
  exists weights output,
    MultiHeadAttention.call sample_mha sample_input sample_input sample_input
      None = Ok (output, weights) /\
    shape output = [1; 1; 1]%nat /\ shape weights = [1; 1; 1; 1]%nat.
Proof.
  destruct (multi_head_attention_call_spec sample_mha 1 1 1 1 1 1 1 1
              sample_input sample_input sample_input None)
    as (qh & kh & vh & att & w & out & E & _ & _ & _ & _ & Sw & So & _);
    try reflexivity; try lia.
  - exact sample_mha_ok.
  - discriminate.
  - exists w, out. repeat split; assumption.
Defined.

End MultiHead.

(** ** Point-wise feed-forward *)

Section FeedForward.

Local Open Scope R_scope.

Lemma dropout_shape (l : Dropout.t) (x : tensor R) (training : bool)
      (keep : list nat -> bool) :
  shape (Dropout.call l x training keep) = shape x.
Proof.
  unfold Dropout.call. destruct training; [|reflexivity].
  destruct (Req_dec_T (Dropout.rate l) 0); reflexivity.
Qed.

Lemma dropout_wf (l : Dropout.t) (x : tensor R) (training : bool)
      (keep : list nat -> bool) :
  wf x -> wf (Dropout.call l x training keep).
Proof.
  intros W. unfold Dropout.call. destruct training; [|exact W].
  destruct (Req_dec_T (Dropout.rate l) 0); [exact W|apply wf_tabulate].
Qed.

Lemma dropout_entry (l : Dropout.t) (x : tensor R) (training : bool)
      (keep : list nat -> bool) (idx : list nat) :
  in_bounds (shape x) idx ->
  rget (Dropout.call l x training keep) idx =
  dropout_value (Dropout.rate l) training (keep idx) (rget x idx).
Proof.
  intros H. unfold Dropout.call, dropout_value.
  destruct training; [|reflexivity].
  destruct (Req_dec_T (Dropout.rate l) 0); [reflexivity|].
  unfold rget. rewrite get_tabulate by exact H. reflexivity.
Qed.

(** With dropout inactive the layer returns its input. *)
Lemma dropout_inference (l : Dropout.t) (x : tensor R)
      (keep : list nat -> bool) :
  Dropout.call l x false keep = x.
Proof. reflexivity. Qed.

(** A convolution of kernel size 1 is a projection of each position. *)
Lemma conv1d_size1_spec (l : Conv1D.t) (b s c f : nat) (x : tensor R) :
  Conv1D.kernel_size l = 1%nat -> conv_ok l c f -> shape x = [b; s; c] ->
  exists y, Conv1D.call l x = Ok y /\ shape y = [b; s; f] /\ wf y /\
    forall i p o, (i < b)%nat -> (p < s)%nat -> (o < f)%nat ->
      rget y [i; p; o] =
      Conv1D.activation l
        (sum_n c (fun ch => rget x [i; p; ch] * rget (Conv1D.kernel l) [0; ch; o]%nat)
         + rget (Conv1D.bias l) [o]).
Proof.
  intros Hks (Hf & Hk & Hb) Hx. unfold Conv1D.call.
  rewrite Hx, Hf, Hk, Hb, Hks. unfold shape_eqb.
  destruct (list_eq_dec Nat.eq_dec [1%nat; c; f] [1%nat; c; f]) as [_|N];
    [|contradiction].
  destruct (list_eq_dec Nat.eq_dec [f] [f]) as [_|N]; [|contradiction].
  replace (1 <=? s + 1)%nat with true by (symmetry; apply Nat.leb_le; lia).
  cbn [andb].
  replace (s + 1 - 1)%nat with s by lia.
  eexists; split; [reflexivity|]; split; [reflexivity|];
    split; [apply wf_tabulate|].
  intros i p o Hi Hp Ho. unfold rget.
  rewrite get_tabulate by (repeat constructor; assumption).
  f_equal. f_equal. unfold sum_n at 1. cbn [seq map fold_right].
  rewrite Rplus_0_r, Nat.add_0_r. reflexivity.
Qed.

Lemma project_position_ext (kernel bias : tensor R) (c : nat)
      (feat feat' : nat -> R) (o : nat) :
  (forall ch, (ch < c)%nat -> feat ch = feat' ch) ->
  project_position kernel bias c feat o = project_position kernel bias c feat' o.
Proof.
  intros H. unfold project_position. f_equal. f_equal.
  apply sum_n_ext. intros ch Hch. rewrite H by exact Hch. reflexivity.
Qed.

Lemma ffn_position_ext (self : PointWiseFFN.t) (training : bool) (c dm : nat)
      (feat feat' : nat -> R) (kept : nat -> bool) (o : nat) :
  (forall ch, (ch < c)%nat -> feat ch = feat' ch) ->
  ffn_position self training c dm feat kept o =
  ffn_position self training c dm feat' kept o.
Proof.
  intros H. unfold ffn_position. apply project_position_ext.
  intros c' _. f_equal. apply project_position_ext, H.
Qed.

(** What the constructor builds: two relu convolutions of kernel size 1. *)
Lemma init_ffn_ok (d_model : Z) (rate : R) (w : PointWiseFFN.weights) (c : nat) :
  ffn_weights_ok w c (Z.to_nat d_model) ->
  ffn_ok (PointWiseFFN.init d_model rate w) c (Z.to_nat d_model).
Proof.
  intros (K1 & B1 & K2 & B2). unfold ffn_ok, conv_ok. cbn.
  repeat split; assumption.
Qed.

Lemma ffn_call_spec (self : PointWiseFFN.t) (b s c dm : nat) (x : tensor R)
      (training : bool) (keep : list nat -> bool) :
  ffn_ok self c dm -> shape x = [b; s; c] ->
  exists out, PointWiseFFN.call self x training keep = Ok out /\
    shape out = [b; s; dm] /\ wf out /\
    forall i p o, (i < b)%nat -> (p < s)%nat -> (o < dm)%nat ->
      rget out [i; p; o] =
      ffn_position self training c dm
        (fun ch => rget x [i; p; ch]) (fun c' => keep [i; p; c']) o.
Proof.
  intros (Ks1 & Ks2 & A1 & A2 & Ok1 & Ok2) Hx. unfold PointWiseFFN.call.
  destruct (conv1d_size1_spec _ b s c dm x Ks1 Ok1 Hx) as (h1 & E1 & S1 & _ & G1).
  rewrite E1. cbn [bind].
  destruct (conv1d_size1_spec _ b s dm dm
              (Dropout.call (PointWiseFFN.dropout self) h1 training keep)
              Ks2 Ok2)
    as (out & E2 & S2 & W2 & G2).
  { rewrite dropout_shape. exact S1. }
  rewrite E2. cbn [bind].
  exists out. repeat split; try assumption.
  intros i p o Hi Hp Ho. rewrite G2 by assumption.
  unfold ffn_position, project_position. rewrite A2.
  f_equal. f_equal. apply sum_n_ext. intros c' Hc'. f_equal.
  rewrite dropout_entry by (rewrite S1; repeat constructor; assumption).
  rewrite G1, A1 by assumption. reflexivity.
Qed.

(** C9.  [PointWiseFFN] applies two successive kernel-size-1 projections,
    each followed by the nonlinearity, with dropout between them that acts
    only when [training] is true; the output at a position is a function of
    the input features (and keep decisions) of that position alone, so two
    inputs that agree at a position give the same output there. *)
Theorem point_wise_ffn_spec
        (d_model : Z) (rate : R) (w : PointWiseFFN.weights)
        (b s c : nat) (x : tensor R) (training : bool)
        (keep : list nat -> bool) :
  let self := PointWiseFFN.init d_model rate w in
  let dm := Z.to_nat d_model in
  ffn_weights_ok w c dm -> shape x = [b; s; c] ->
  exists out, PointWiseFFN.call self x training keep = Ok out /\
    shape out = [b; s; dm] /\
    (forall i p o, (i < b)%nat -> (p < s)%nat -> (o < dm)%nat ->
       rget out [i; p; o] =
       ffn_position self training c dm
         (fun ch => rget x [i; p; ch]) (fun c' => keep [i; p; c']) o) /\
    (forall v kept, ffn_position self false c dm v kept =
                    ffn_position self false c dm v (fun _ => true)) /\
    (forall x', shape x' = [b; s; c] ->
       exists out', PointWiseFFN.call self x' training keep = Ok out' /\
         forall i p, (i < b)%nat -> (p < s)%nat ->
           (forall ch, (ch < c)%nat -> rget x' [i; p; ch] = rget x [i; p; ch]) ->
           forall o, (o < dm)%nat -> rget out' [i; p; o] = rget out [i; p; o]).
Proof.
  intros self dm Hw Hx.
  pose proof (init_ffn_ok d_model rate w c Hw) as Hok. fold self dm in Hok.
  destruct (ffn_call_spec self b s c dm x training keep Hok Hx)
    as (out & E & S & _ & G).
  exists out. split; [exact E|]. split; [exact S|]. split; [exact G|].
  split; [reflexivity|].
  intros x' Hx'.
  destruct (ffn_call_spec self b s c dm x' training keep Hok Hx')
    as (out' & E' & _ & _ & G').
  exists out'. split; [exact E'|].
  intros i p Hi Hp Hagree o Ho.
  rewrite G, G' by assumption. apply ffn_position_ext, Hagree.
Qed.

Lemma point_wise_ffn_witness :
  exists out,
    PointWiseFFN.call (PointWiseFFN.init 1 (1 / 10) sample_ffn_weights)
      sample_input true (fun _ => true) = Ok out /\
    shape out = [1; 1; 1]%nat.
Proof.
  destruct (point_wise_ffn_spec 1 (1 / 10) sample_ffn_weights 1 1 1
              sample_input true (fun _ => true))
    as (out & E & S & _).
  - unfold ffn_weights_ok. cbn. repeat split; reflexivity.
  - reflexivity.
  - exists out. split; assumption.
Defined.

End FeedForward.

(** ** Encoder layer *)

Section EncoderLayer.

Local Open Scope R_scope.

Lemma layernorm_spec (l : LayerNormalization.t) (pre : list nat) (n : nat)
      (x : tensor R) :
  ln_ok l n -> shape x = pre ++ [n] ->
  exists y, LayerNormalization.call l x = Ok y /\
    shape y = pre ++ [n] /\ wf y /\
    forall row j, in_bounds pre row -> (j < n)%nat ->
      rget y (row ++ [j]) = layer_norm_entry l x row j.
Proof.
  intros (Hg & Hb) Hx. unfold LayerNormalization.call.
  rewrite Hx, rev_app_distr, Hg, Hb. cbn [rev app]. unfold shape_eqb.
  destruct (list_eq_dec Nat.eq_dec [n] [n]) as [_|N]; [|contradiction].
  cbn [andb].
  eexists; split; [reflexivity|]; split; [reflexivity|];
    split; [apply wf_tabulate|].
  intros row j Hrow Hj. unfold rget.
  rewrite get_tabulate
    by (apply in_bounds_app; [exact Hrow|repeat constructor; exact Hj]).
  unfold layer_norm_entry. rewrite Hx, removelast_last, !last_last.
  reflexivity.
Qed.

Lemma encoder_layer_spec (self : SASEncoderLayer.t) (h dp b s : nat)
      (x : tensor R) (training : bool) (mask : option (tensor R))
      (nz : SASEncoderLayer.noise) :
  layer_ok self h dp -> (0 < b)%nat ->
  shape x = [b; s; h * dp]%nat ->
  (forall m, mask = Some m ->
     broadcast_shapes [b; h; s; s] (shape m) = Ok [b; h; s; s]) ->
  exists attn w s1 out1 f1 s2 out2,
    MultiHeadAttention.call (SASEncoderLayer.mha self) x x x mask
      = Ok (attn, w) /\
    broadcast_op Rplus x
      (Dropout.call (SASEncoderLayer.dropout1 self) attn training
         (SASEncoderLayer.keep1 nz)) = Ok s1 /\
    LayerNormalization.call (SASEncoderLayer.layernorm1 self) s1 = Ok out1 /\
    PointWiseFFN.call (SASEncoderLayer.ffn self) out1 training
      (SASEncoderLayer.keep_ffn nz) = Ok f1 /\
    broadcast_op Rplus out1
      (Dropout.call (SASEncoderLayer.dropout2 self) f1 training
         (SASEncoderLayer.keep2 nz)) = Ok s2 /\
    LayerNormalization.call (SASEncoderLayer.layernorm2 self) s2 = Ok out2 /\
    SASEncoderLayer.call self x training mask nz = Ok out2 /\
    shape out2 = [b; s; h * dp]%nat /\ wf out2 /\
    (forall idx, in_bounds [b; s; h * dp]%nat idx ->
       rget s1 idx =
       rget x idx +
       rget (Dropout.call (SASEncoderLayer.dropout1 self) attn training
               (SASEncoderLayer.keep1 nz)) idx) /\
    (forall idx, in_bounds [b; s; h * dp]%nat idx ->
       rget s2 idx =
       rget out1 idx +
       rget (Dropout.call (SASEncoderLayer.dropout2 self) f1 training
               (SASEncoderLayer.keep2 nz)) idx).
Proof.
  intros (Hmha & Hffn & Hln1 & Hln2) Hb Hx Hm.
  unfold SASEncoderLayer.call.
  destruct (mha_call_spec _ h dp _ _ _ b s s x x x mask Hmha Hb Hx Hx Hx Hm)
    as (qh & kh & vh & att & w & attn & Ea & _ & _ & _ & _ & _ & Sa & _ & _).
  rewrite Ea. cbn [bind].
  destruct (broadcast_same_spec Rplus x
              (Dropout.call (SASEncoderLayer.dropout1 self) attn training
                 (SASEncoderLayer.keep1 nz)))
    as (s1 & E1 & S1 & _ & G1).
  { rewrite dropout_shape. congruence. }
  rewrite E1. cbn [bind].
  destruct (layernorm_spec _ [b; s] (h * dp) s1 Hln1) as (out1 & E2 & S2 & _ & _).
  { rewrite S1. exact Hx. }
  rewrite E2. cbn [bind]. cbn [app] in S2.
  destruct (ffn_call_spec _ b s (h * dp) (h * dp) out1 training
              (SASEncoderLayer.keep_ffn nz) Hffn S2)
    as (f1 & E3 & S3 & _ & _).
  rewrite E3. cbn [bind].
  destruct (broadcast_same_spec Rplus out1
              (Dropout.call (SASEncoderLayer.dropout2 self) f1 training
                 (SASEncoderLayer.keep2 nz)))
    as (s2 & E4 & S4 & _ & G4).
  { rewrite dropout_shape. congruence. }
  rewrite E4. cbn [bind].
  destruct (layernorm_spec _ [b; s] (h * dp) s2 Hln2) as (out2 & E5 & S5 & W5 & _).
  { rewrite S4. exact S2. }
  rewrite E5. cbn [bind]. cbn [app] in S5.
  exists attn, w, s1, out1, f1, s2, out2.
  repeat (split; [first [reflexivity|assumption]|]).
  split.
  - intros idx Hi. apply G1. rewrite Hx. exact Hi.
  - intros idx Hi. apply G4. rewrite S2. exact Hi.
Qed.





End EncoderLayer.

(** ** Encoder *)

Section Encoder.

Local Open Scope R_scope.

Lemma in_data_tabulate {A : Type} (sh : list nat) (f : list nat -> A) (z : A) :
  In z (data (tabulate sh f)) <->
  exists idx, in_bounds sh idx /\ z = f idx.
Proof.
  unfold tabulate. cbn [data]. rewrite in_map_iff. split.
  - intros (k & <- & Hk). apply in_seq in Hk.
    exists (unravel sh k). split; [apply unravel_in_bounds; lia|reflexivity].
  - intros (idx & Hi & ->). exists (ravel sh idx). split.
    + rewrite unravel_ravel by exact Hi. reflexivity.
    + apply in_seq. pose proof (ravel_lt _ _ Hi). lia.
Qed.

Lemma embedding_spec (l : Embedding.t) (rows cols : nat) (ids : tensor Z) :
  emb_ok l rows cols ->
  (forall z, In z (data ids) -> (0 <= z < Z.of_nat rows)%Z) ->
  exists y, Embedding.call l ids = Ok y /\
    shape y = shape ids ++ [cols] /\ wf y /\
    forall idx j, in_bounds (shape ids) idx -> (j < cols)%nat ->
      rget y (idx ++ [j]) =
      rget (Embedding.embeddings l) [Z.to_nat (zget ids idx); j].
Proof.
  intros (Hin & Hout & Hs) Hids. unfold Embedding.call.
  rewrite Hin, Hout, !Nat2Z.id, Hs. unfold shape_eqb.
  destruct (list_eq_dec Nat.eq_dec [rows; cols] [rows; cols]) as [_|N];
    [|contradiction].
  assert (Hall : forallb (Embedding.id_ok l) (data ids) = true).
  { apply forallb_forall. intros z Hz. unfold Embedding.id_ok.
    rewrite Hin. specialize (Hids z Hz).
    apply andb_true_intro. split; [apply Z.leb_le|apply Z.ltb_lt]; lia. }
  rewrite Hall.
  eexists; split; [reflexivity|]; split; [reflexivity|];
    split; [apply wf_tabulate|].
  intros idx j Hi Hj. unfold rget.
  rewrite get_tabulate
    by (apply in_bounds_app; [exact Hi|repeat constructor; exact Hj]).
  rewrite removelast_last, last_last. reflexivity.
Qed.


(** The position tensor: row [i], column [p] holds [p]. *)
Lemma positions_spec (x : tensor R) (b s d : nat) :
  shape x = [b; s; d] ->
  exists xp, SASEncoder.positions x = Ok xp /\
    shape xp = [b; s] /\ wf xp /\
    (forall i p, (i < b)%nat -> (p < s)%nat -> zget xp [i; p] = Z.of_nat p) /\
    (forall z, In z (data xp) <->
               exists i p, (i < b)%nat /\ (p < s)%nat /\ z = Z.of_nat p).
Proof.
  intros Hx. unfold SASEncoder.positions, shape_at. rewrite Hx.
  cbn [nth_error bind]. unfold tile.
  cbn [expand_dims0 tf_range shape data length Nat.eqb zip_with].
  rewrite Nat.mul_1_l, Nat.mul_1_r.
  set (f := fun idx : list nat =>
              get 0%Z (mkTensor [1%nat; s] (map Z.of_nat (seq 0 s)))
                  (zip_with (fun i n => (i mod n)%nat) idx [1%nat; s])).
  assert (Hf : forall i p, (p < s)%nat -> f [i; p] = Z.of_nat p).
  { intros i p Hp. unfold f, get. cbn [zip_with shape data ravel numel fold_right].
    rewrite Nat.mod_1_r, (Nat.mod_small p s Hp).
    replace (0 * (s * 1) + (p * 1 + 0))%nat with p by lia.
    change 0%Z with (Z.of_nat 0). rewrite map_nth, seq_nth by exact Hp.
    reflexivity. }
  exists (tabulate [b; s] f).
  split; [reflexivity|]. split; [reflexivity|]. split; [apply wf_tabulate|].
  split.
  - intros i p Hi Hp. unfold zget.
    rewrite get_tabulate by (repeat constructor; assumption).
    apply Hf, Hp.
  - intros z. rewrite in_data_tabulate. split.
    + intros (idx & Hi & ->).
      inversion Hi as [|i n0 idx1 sh1 Hib H1]; subst.
      inversion H1 as [|p n1 idx2 sh2 Hps H2]; subst.
      inversion H2; subst.
      exists i, p. repeat split; try assumption. apply Hf, Hps.
    + intros (i & p & Hi & Hp & ->).
      exists [i; p]. split; [repeat constructor; assumption|].
      symmetry. apply Hf, Hp.
Qed.

(** The part of the forward pass before the layers: scaled token
    embeddings plus positional embeddings, then dropout. *)
Lemma embed_spec (self : SASEncoder.t) (vocab max_len h dp n b s : nat)
      (x : tensor Z) (training : bool) (keep : list nat -> bool) :
  encoder_ok self vocab max_len h dp n ->
  shape x = [b; s] ->
  (forall z, In z (data x) -> (0 <= z < Z.of_nat vocab)%Z) ->
  b = 0%nat \/ (s <= max_len)%nat ->
  exists pre e,
    SASEncoder.embed self x training keep = Ok e /\
    e = Dropout.call (SASEncoder.dropout self) pre training keep /\
    shape pre = [b; s; h * dp]%nat /\ wf pre /\
    shape e = [b; s; h * dp]%nat /\
    forall i p c, (i < b)%nat -> (p < s)%nat -> (c < h * dp)%nat ->
      rget pre [i; p; c] =
      rget (Embedding.embeddings (SASEncoder.embedding self))
           [Z.to_nat (zget x [i; p]); c]
      * sqrt (IZR (SASEncoder.d_model self))
      + rget (Embedding.embeddings (SASEncoder.pos_embedding self)) [p; c].
Proof.
  intros (Hdm & _ & _ & _ & Hemb & Hpos) Hx Hids Hlen.
  unfold SASEncoder.embed, shape_at. rewrite Hx. cbn [nth_error bind].
  destruct (embedding_spec _ vocab (h * dp) x Hemb Hids)
    as (e0 & E0 & S0 & _ & G0).
  rewrite E0. cbn [bind]. rewrite Hx in S0, G0. cbn [app] in S0.
  change (tf_sqrt (scalar (IZR (SASEncoder.d_model self))))
    with (scalar (sqrt (IZR (SASEncoder.d_model self)))).
  destruct (broadcast_scalar_spec Rmult e0
              (sqrt (IZR (SASEncoder.d_model self))))
    as (e1 & E1 & S1 & _ & G1).
  rewrite E1. cbn [bind]. rewrite S0 in S1, G1.
  destruct (positions_spec e1 b s (h * dp) S1) as (xp & Ep & Sp & _ & Gp & Dp).
  rewrite Ep. cbn [bind].
  destruct (embedding_spec _ max_len (h * dp) xp Hpos) as (ep & E2 & S2 & _ & G2).
  { intros z Hz. apply Dp in Hz. destruct Hz as (i & p & Hi & Hp & ->). lia. }
  rewrite E2. cbn [bind]. rewrite Sp in S2, G2. cbn [app] in S2.
  destruct (broadcast_same_spec Rplus e1 ep) as (pre & E3 & S3 & W3 & G3);
    [congruence|].
  rewrite E3. cbn [bind]. rewrite S1 in S3, G3.
  exists pre, (Dropout.call (SASEncoder.dropout self) pre training keep).
  split; [reflexivity|]. split; [reflexivity|]. split; [exact S3|].
  split; [exact W3|]. split; [rewrite dropout_shape; exact S3|].
  intros i p c Hi Hp Hc.
  assert (Hin : in_bounds [b; s; (h * dp)%nat] [i; p; c])
    by (repeat constructor; assumption).
  assert (Hip : in_bounds [b; s] [i; p]) by (repeat constructor; assumption).
  rewrite (G3 _ Hin), (G1 _ Hin).
  pose proof (G0 [i; p] c Hip Hc) as H0. cbn [app] in H0. rewrite H0.
  pose proof (G2 [i; p] c Hip Hc) as H2. cbn [app] in H2. rewrite H2.
  rewrite (Gp i p Hi Hp), Nat2Z.id. reflexivity.
Qed.

(** The loop over the layers, as the list of its successive states. *)
Lemma run_layers_trace (self : SASEncoder.t) (h dp b s : nat)
      (training : bool) (mask : option (tensor R))
      (nz : nat -> SASEncoderLayer.noise) (d : tensor R) :
  Forall (fun l => layer_ok l h dp) (SASEncoder.enc_layers self) ->
  (forall m, mask = Some m ->
     broadcast_shapes [b; h; s; s] (shape m) = Ok [b; h; s; s]) ->
  forall len start x,
    (0 < len -> 0 < b)%nat ->
    (start + len <= length (SASEncoder.enc_layers self))%nat ->
    shape x = [b; s; h * dp]%nat ->
    exists xs,
      length xs = S len /\ nth 0 xs d = x /\
      (forall k, (k < len)%nat ->
         exists layer,
           nth_error (SASEncoder.enc_layers self) (start + k) = Some layer /\
           SASEncoderLayer.call layer (nth k xs d) training mask
             (nz (start + k)%nat) = Ok (nth (S k) xs d)) /\
      (forall k, (k <= len)%nat -> shape (nth k xs d) = [b; s; h * dp]%nat) /\
      SASEncoder.run_layers self (seq start len) x training mask nz
        = Ok (nth len xs d).
Proof.
  intros Hall Hm. induction len as [|len IH]; intros start x Hb Hlen Hx.
  - exists [x]. split; [reflexivity|]. split; [reflexivity|].
    split; [intros k Hk; lia|]. split; [|reflexivity].
    intros k Hk. replace k with 0%nat by lia. exact Hx.
  - assert (Hb' : (0 < b)%nat) by (apply Hb; lia).
    destruct (nth_error (SASEncoder.enc_layers self) start) as [layer|] eqn:El.
    2:{ apply nth_error_None in El. lia. }
    assert (Hok : layer_ok layer h dp).
    { rewrite Forall_forall in Hall. apply Hall.
      eapply nth_error_In. exact El. }
    destruct (encoder_layer_spec layer h dp b s x training mask (nz start)
                Hok Hb' Hx Hm)
      as (a & w & s1 & o1 & f1 & s2 & out & _ & _ & _ & _ & _ & _ & Ec & So & _).
    destruct (IH (S start) out) as (xs & Lxs & X0 & Step & Shapes & Run);
      [intros _; exact Hb'|lia|exact So|].
    exists (x :: xs). split; [cbn; lia|]. split; [reflexivity|].
    split; [|split].
    + intros k Hk. destruct k as [|k].
      * exists layer. rewrite Nat.add_0_r. cbn [nth]. rewrite X0.
        split; [exact El|exact Ec].
      * destruct (Step k) as (layer' & El' & Ec'); [lia|].
        exists layer'. rewrite Nat.add_succ_r. cbn [nth]. split; assumption.
    + intros k Hk. destruct k as [|k]; [exact Hx|].
      cbn [nth]. apply Shapes. lia.
    + cbn [seq SASEncoder.run_layers]. rewrite El, Ec. cbn [bind nth].
      exact Run.
Qed.

Lemma encoder_call_trace (self : SASEncoder.t) (vocab max_len h dp n b s : nat)
      (x : tensor Z) (training : bool) (mask : option (tensor R))
      (nz : SASEncoder.noise) :
  encoder_ok self vocab max_len h dp n ->
  shape x = [b; s] ->
  (forall z, In z (data x) -> (0 <= z < Z.of_nat vocab)%Z) ->
  (s <= max_len)%nat ->
  (0 < n -> 0 < b)%nat ->
  (forall m, mask = Some m ->
     broadcast_shapes [b; h; s; s] (shape m) = Ok [b; h; s; s]) ->
  exists pre e xs out,
    SASEncoder.embed self x training (SASEncoder.keep_emb nz) = Ok e /\
    e = Dropout.call (SASEncoder.dropout self) pre training
          (SASEncoder.keep_emb nz) /\
    shape pre = [b; s; h * dp]%nat /\
    (forall i p c, (i < b)%nat -> (p < s)%nat -> (c < h * dp)%nat ->
       rget pre [i; p; c] =
       rget (Embedding.embeddings (SASEncoder.embedding self))
            [Z.to_nat (zget x [i; p]); c]
       * sqrt (IZR (SASEncoder.d_model self))
       + rget (Embedding.embeddings (SASEncoder.pos_embedding self)) [p; c]) /\
    length xs = S n /\ nth 0 xs e = e /\
    (forall k, (k < n)%nat ->
       exists layer,
         nth_error (SASEncoder.enc_layers self) k = Some layer /\
         SASEncoderLayer.call layer (nth k xs e) training mask
           (SASEncoder.layer_noise nz k) = Ok (nth (S k) xs e)) /\
    out = nth n xs e /\
    SASEncoder.call self x training mask nz = Ok out /\
    shape out = [b; s; h * dp]%nat /\
    (n = 0%nat -> out = e).
Proof.
  intros Hok Hx Hids Hlen Hb Hm.
  destruct (embed_spec self vocab max_len h dp n b s x training
              (SASEncoder.keep_emb nz) Hok Hx Hids (or_intror Hlen))
    as (pre & e & Ee & De & Sp & _ & Se & Gp).
  destruct Hok as (_ & Hn & Hl & Hall & _ & _).
  destruct (run_layers_trace self h dp b s training mask
              (SASEncoder.layer_noise nz) e Hall Hm n 0%nat e Hb)
    as (xs & Lxs & X0 & Step & Shapes & Run); [lia|exact Se|].
  exists pre, e, xs, (nth n xs e).
  split; [exact Ee|]. split; [exact De|]. split; [exact Sp|].
  split; [exact Gp|]. split; [exact Lxs|]. split; [exact X0|].
  split; [exact Step|]. split; [reflexivity|].
  split; [|split].
  - unfold SASEncoder.call. rewrite Ee. cbn [bind].
    rewrite Hn, Nat2Z.id. exact Run.
  - apply Shapes. lia.
  - intros ->. exact X0.
Qed.











(** ** Determinism of inference *)

Lemma ffn_inference (self : PointWiseFFN.t) (x : tensor R)
      (k1 k2 : list nat -> bool) :
  PointWiseFFN.call self x false k1 = PointWiseFFN.call self x false k2.
Proof. reflexivity. Qed.

Lemma layer_inference (self : SASEncoderLayer.t) (x : tensor R)
      (mask : option (tensor R)) (nz1 nz2 : SASEncoderLayer.noise) :
  SASEncoderLayer.call self x false mask nz1 =
  SASEncoderLayer.call self x false mask nz2.
Proof. reflexivity. Qed.

Lemma run_layers_inference (self : SASEncoder.t) (ixs : list nat)
      (mask : option (tensor R)) (nz1 nz2 : nat -> SASEncoderLayer.noise) :
  forall x,
    SASEncoder.run_layers self ixs x false mask nz1 =
    SASEncoder.run_layers self ixs x false mask nz2.
Proof.
  induction ixs as [|i ixs IH]; intros x; cbn [SASEncoder.run_layers].
  - reflexivity.
  - destruct (nth_error (SASEncoder.enc_layers self) i) as [layer|];
      [|reflexivity].
    rewrite (layer_inference layer x mask (nz1 i) (nz2 i)).
    destruct (SASEncoderLayer.call layer x false mask (nz2 i)) as [y|err];
      cbn [bind]; [apply IH|reflexivity].
Qed.

(** During training the keep decisions do change the result. *)
Lemma dropout_training_depends_on_noise :
  Dropout.call (Dropout.mk (1 / 2)) (mkTensor [1%nat] [1]) true (fun _ => true)
  <> Dropout.call (Dropout.mk (1 / 2)) (mkTensor [1%nat] [1]) true
       (fun _ => false).
Proof.
  unfold Dropout.call. cbn [Dropout.rate].
  destruct (Req_dec_T (1 / 2) 0) as [E|_]; [lra|].
  unfold tabulate. cbn. intros [= H]. lra.
Qed.

(** C6.  With [training = false] the result of an encoder layer, and of
    the whole encoder, does not depend on the random keep decisions of the
    dropout layers: two calls on the same input, mask and parameters return
    the same result. *)
Theorem inference_is_deterministic :
  (forall (self : SASEncoderLayer.t) (x : tensor R) (mask : option (tensor R))
          (nz1 nz2 : SASEncoderLayer.noise),
     SASEncoderLayer.call self x false mask nz1 =
     SASEncoderLayer.call self x false mask nz2) /\
  (forall (self : SASEncoder.t) (x : tensor Z) (mask : option (tensor R))
          (nz1 nz2 : SASEncoder.noise),
     SASEncoder.call self x false mask nz1 =
     SASEncoder.call self x false mask nz2).
Proof.
  split.
  - exact layer_inference.
  - intros self x mask nz1 nz2. unfold SASEncoder.call.
    change (SASEncoder.embed self x false (SASEncoder.keep_emb nz1))
      with (SASEncoder.embed self x false (SASEncoder.keep_emb nz2)).
    destruct (SASEncoder.embed self x false (SASEncoder.keep_emb nz2))
      as [e|err]; cbn [bind]; [|reflexivity].
    apply run_layers_inference.
Qed.

End Encoder.

(** ** Concrete runs *)

Section Runs.

Example unravel_2x3 : unravel [2; 3] 4 = [1; 1].
Proof. reflexivity. Qed.

Example ravel_2x3 : ravel [2; 3] [1; 1] = 4.
Proof. reflexivity. Qed.

Example broadcast_padding_mask :
  broadcast_shapes [2; 4; 5; 5] [2; 1; 1; 5] = Ok [2; 4; 5; 5].
Proof. reflexivity. Qed.

Example broadcast_mismatch :
  broadcast_shapes [2; 3] [2; 4] = Raise InvalidArgumentError.
Proof. reflexivity. Qed.

(** Cutting four features into two heads, then moving the head axis
    before the position axis. *)
Example split_two_heads :
  (x <- reshape (mkTensor [1; 2; 4] [1; 2; 3; 4; 5; 6; 7; 8]%Z)
                [1; -1; 2; 2]%Z ;;
   transpose 0%Z x [0; 2; 1; 3])
  = Ok (mkTensor [1; 2; 2; 2] [1; 2; 5; 6; 3; 4; 7; 8]%Z).
Proof. reflexivity. Qed.

Example reshape_not_divisible :
  reshape (mkTensor [1; 3] [1; 2; 3]%Z) [1; -1; 2]%Z
  = Raise InvalidArgumentError.
Proof. reflexivity. Qed.

Example positions_2x3 :
  SASEncoder.positions (mkTensor [2; 3; 0] [])
  = Ok (mkTensor [2; 3] [0; 1; 2; 0; 1; 2]%Z).
Proof. reflexivity. Qed.

Example init_10_3 :
  MultiHeadAttention.init 10 3 sample_mha_weights = Raise AssertionError.
Proof. reflexivity. Qed.

Example init_16_2 :
  exists self, MultiHeadAttention.init 16 2 sample_mha_weights = Ok self /\
               MultiHeadAttention.depth self = 8%Z.
Proof. eexists. split; reflexivity. Qed.

(** The end-to-end scenario of the specification: a batch of shape (2, 5),
    a vocabulary of 100, width 16, two heads, at most 10 positions, two
    layers. *)
Lemma end_to_end_shape (self : SASEncoder.t) (x : tensor Z) (training : bool)
      (nz : SASEncoder.noise) :
  encoder_ok self 100 10 2 8 2 ->
  shape x = [2; 5] ->
  (forall z, In z (data x) -> (0 <= z < 100)%Z) ->
  exists out, SASEncoder.call self x training None nz = Ok out /\
              shape out = [2; 5; 16].
Proof.
  intros Hok Hx Hids.
  destruct (encoder_call_trace self 100 10 2 8 2 2 5 x training None nz
              Hok Hx Hids)
    as (pre & e & xs & out & _ & _ & _ & _ & _ & _ & _ & _ & E & S & _);
    try lia; try discriminate.
  exists out. split; assumption.
Qed.

End Runs.

(* ================================================================== *)
(** * Part III.  Further properties of the code *)
(* ================================================================== *)

(** ** More on sums *)

Section MoreSums.

Local Open Scope R_scope.

Lemma sum_n_scal_r (n : nat) (f : nat -> R) (c : R) :
  sum_n n (fun i => f i * c) = sum_n n f * c.
Proof.
  induction n as [|n IH].
  - rewrite !sum_n_0. lra.
  - rewrite !sum_n_S, IH. lra.
Qed.





(** Softmax does not see a constant added to all the logits of a row. *)
Lemma softmax_shift (n : nat) (l : nat -> R) (c : R) (j : nat) :
  (j < n)%nat ->
  exp (l j + c) / sum_n n (fun j' => exp (l j' + c)) =
  exp (l j) / sum_n n (fun j' => exp (l j')).
Proof.
  intros Hj.
  assert (Hpos : 0 < sum_n n (fun j' => exp (l j')))
    by (apply sum_n_pos; [lia|intros; apply exp_pos]).
  rewrite (sum_n_ext n (fun j' => exp (l j' + c))
                     (fun j' => exp (l j') * exp c))
    by (intros; apply exp_plus).
  rewrite sum_n_scal_r, exp_plus.
  pose proof (exp_pos c). field. split; lra.
Qed.

End MoreSums.

(** ** Attention weights as a distribution *)

Section AttentionDistribution.

Local Open Scope R_scope.







End AttentionDistribution.

(** ** Masks that do not change the result *)

Section ConstantMask.

Local Open Scope R_scope.

Lemma spec_logit_some (q k m : tensor R) (depth : nat) (bi : list nat)
      (i j : nat) :
  spec_logit q k (Some m) depth bi i j =
  spec_logit q k None depth bi i j
  + rget m (bcast_index (shape m) (bi ++ [i; j])) * - 1000000000.
Proof. reflexivity. Qed.

Lemma spec_weight_constant_row (q k m : tensor R) (depth sk : nat)
      (bi : list nat) (i : nat) (c : R) :
  (forall j, (j < sk)%nat ->
     rget m (bcast_index (shape m) (bi ++ [i; j])) = c) ->
  forall j, (j < sk)%nat ->
    spec_weight q k (Some m) depth sk bi i j =
    spec_weight q k None depth sk bi i j.
Proof.
  intros Hc j Hj. unfold spec_weight.
  rewrite spec_logit_some, (Hc j Hj).
  rewrite (sum_n_ext sk
             (fun j' => exp (spec_logit q k (Some m) depth bi i j'))
             (fun j' => exp (spec_logit q k None depth bi i j'
                             + c * - 1000000000))).
  - apply (softmax_shift sk (fun j' => spec_logit q k None depth bi i j')
                         (c * - 1000000000) j Hj).
  - intros j' Hj'. rewrite spec_logit_some, (Hc j' Hj'). reflexivity.
Qed.



(** X4.  A mask whose entries are all zero gives exactly the result of
    the call without a mask. *)
Theorem zero_mask_is_no_mask
        (pre : list nat) (sq sk depth dv : nat) (q k v m : tensor R) :
  shape q = pre ++ [sq; depth] ->
  shape k = pre ++ [sk; depth] ->
  shape v = pre ++ [sk; dv] ->
  broadcast_shapes (pre ++ [sq; sk]) (shape m) = Ok (pre ++ [sq; sk]) ->
  (forall idx, in_bounds (shape m) idx -> rget m idx = 0) ->
  scaled_dot_product_attention q k v (Some m) =
  scaled_dot_product_attention q k v None.
Proof.
  intros Hq Hk Hv Hm Hz.
  destruct (sdpa_entries pre sq sk depth dv q k v (Some m) Hq Hk Hv)
    as (out & w & E & Sw & Ww & So & Wo & Gw & Go).
  { intros m' [= <-]. exact Hm. }
  destruct (sdpa_entries pre sq sk depth dv q k v None Hq Hk Hv)
    as (out0 & w0 & E0 & Sw0 & Ww0 & So0 & Wo0 & Gw0 & Go0); [discriminate|].
  rewrite E, E0.
  assert (Hrow : forall bi i, in_bounds pre bi -> (i < sq)%nat ->
            forall j, (j < sk)%nat ->
              rget m (bcast_index (shape m) (bi ++ [i; j])) = 0).
  { intros bi i Hbi Hi j Hj. apply Hz.
    eapply bcast_index_in_bounds; [exact Hm|].
    apply in_bounds_app2; assumption. }
  assert (Ew : w = w0).
  { apply (tensor_ext 0 w w0 Ww Ww0); [congruence|].
    intros idx Hidx. rewrite Sw in Hidx.
    destruct (in_bounds_app2_inv _ _ _ _ Hidx) as (bi & i & j & -> & Hbi & Hi & Hj).
    fold (rget w (bi ++ [i; j])). fold (rget w0 (bi ++ [i; j])).
    rewrite Gw, Gw0 by assumption.
    apply (spec_weight_constant_row q k m depth sk bi i 0
             (Hrow bi i Hbi Hi) j Hj). }
  assert (Eo : out = out0).
  { apply (tensor_ext 0 out out0 Wo Wo0); [congruence|].
    intros idx Hidx. rewrite So in Hidx.
    destruct (in_bounds_app2_inv _ _ _ _ Hidx) as (bi & i & c & -> & Hbi & Hi & Hc).
    fold (rget out (bi ++ [i; c])). fold (rget out0 (bi ++ [i; c])).
    rewrite Go, Go0 by assumption.
    unfold spec_attention. apply sum_n_ext. intros j Hj.
    rewrite (spec_weight_constant_row q k m depth sk bi i 0
               (Hrow bi i Hbi Hi) j Hj).
    reflexivity. }
  rewrite Ew, Eo. reflexivity.
Qed.

Lemma zero_mask_is_no_mask_witness :
  scaled_dot_product_attention
    (mkTensor [1%nat; 1%nat] [1]) (mkTensor [2%nat; 1%nat] [1; 0])
    (mkTensor [2%nat; 1%nat] [2; 3])
    (Some (mkTensor [1%nat; 2%nat] [0; 0])) =
  scaled_dot_product_attention
    (mkTensor [1%nat; 1%nat] [1]) (mkTensor [2%nat; 1%nat] [1; 0])
    (mkTensor [2%nat; 1%nat] [2; 3]) None.
Proof.
  apply (zero_mask_is_no_mask [] 1 2 1 1); try reflexivity.
  intros idx Hidx.
  inversion Hidx as [|a n1 t1 s1 Ha H1]; subst.
  inversion H1 as [|b n2 t2 s2 Hb H2]; subst.
  inversion H2; subst.
  assert (a = 0%nat) by lia. subst a.
  destruct b as [|[|b]]; [reflexivity|reflexivity|lia].
Defined.

End ConstantMask.

(** ** Shape errors and locality of attention *)

Section AttentionErrors.

Local Open Scope R_scope.

Lemma matmul_inner_mismatch (pa pb : list nat) (m n r c : nat)
      (a b : tensor R) (tb : bool) :
  shape a = pa ++ [m; n] -> shape b = pb ++ [r; c] ->
  n <> (if tb then c else r) ->
  matmul a b tb = Raise InvalidArgumentError.
Proof.
  intros Ha Hb Hne. unfold matmul.
  rewrite Ha, Hb, !split_last2_app. cbn [bind].
  destruct (Nat.eqb_spec n (if tb then c else r)) as [E|_];
    [contradiction|reflexivity].
Qed.

(** X5.  Queries and keys of different depth, or keys and values of
    different length, make [scaled_dot_product_attention] fail with the
    error of the matrix product; no result is returned. *)
Theorem attention_shape_mismatch_is_rejected
        (pre : list nat) (sq sk sv dq dk dv : nat)
        (q k v : tensor R) (mask : option (tensor R)) :
  shape q = pre ++ [sq; dq] ->
  shape k = pre ++ [sk; dk] ->
  shape v = pre ++ [sv; dv] ->
  (dq <> dk ->
   scaled_dot_product_attention q k v mask = Raise InvalidArgumentError) /\
  (dq = dk ->
   (forall m, mask = Some m ->
      broadcast_shapes (pre ++ [sq; sk]) (shape m) = Ok (pre ++ [sq; sk])) ->
   sk <> sv ->
   scaled_dot_product_attention q k v mask = Raise InvalidArgumentError).
Proof.
  intros Hq Hk Hv. split.
  - intros Hne. unfold scaled_dot_product_attention.
    rewrite (matmul_inner_mismatch pre pre sq dq sk dk q k true Hq Hk Hne).
    reflexivity.
  - intros <- Hm Hne. unfold scaled_dot_product_attention.
    destruct (matmul_spec pre sq dq sk q k true Hq Hk)
      as (qk & E1 & S1 & _ & G1).
    rewrite E1. cbn [bind].
    unfold shape_last. rewrite Hk, rev_app2. cbn [bind].
    change (tf_sqrt (cast_float dq)) with (scalar (sqrt (INR dq))).
    destruct (broadcast_scalar_spec Rdiv qk (sqrt (INR dq)))
      as (sc & E2 & S2 & _ & G2).
    rewrite E2. cbn [bind].
    destruct (attention_logits pre sq sk dq q k sc mask)
      as (lg & E3 & S3 & _); [congruence| |exact Hm|].
    { intros bi i j Hbi Hi Hj.
      rewrite G2 by (rewrite S1; apply in_bounds_app2; assumption).
      rewrite G1 by assumption. reflexivity. }
    rewrite E3. cbn [bind].
    destruct (softmax_spec (pre ++ [sq]) sk lg) as (w & E4 & S4 & _ & _).
    { rewrite S3. apply app_last2. }
    rewrite E4. cbn [bind]. rewrite <- app_last2 in S4.
    rewrite (matmul_inner_mismatch pre pre sq sk sv dv w v false S4 Hv Hne).
    reflexivity.
Qed.

Lemma attention_shape_mismatch_is_rejected_witness :
  scaled_dot_product_attention
    (mkTensor [1%nat; 2%nat] [1; 1]) (mkTensor [1%nat; 1%nat] [1])
    (mkTensor [1%nat; 1%nat] [1]) None = Raise InvalidArgumentError /\
  scaled_dot_product_attention
    (mkTensor [1%nat; 1%nat] [1]) (mkTensor [2%nat; 1%nat] [1; 1])
    (mkTensor [1%nat; 1%nat] [1]) None = Raise InvalidArgumentError.
Proof.
  split.
  - apply (proj1 (attention_shape_mismatch_is_rejected [] 1 1 1 2 1 1
                    (mkTensor [1%nat; 2%nat] [1; 1])
                    (mkTensor [1%nat; 1%nat] [1])
                    (mkTensor [1%nat; 1%nat] [1]) None
                    eq_refl eq_refl eq_refl)).
    lia.
  - apply (proj2 (attention_shape_mismatch_is_rejected [] 1 2 1 1 1 1
                    (mkTensor [1%nat; 1%nat] [1])
                    (mkTensor [2%nat; 1%nat] [1; 1])
                    (mkTensor [1%nat; 1%nat] [1]) None
                    eq_refl eq_refl eq_refl)).
    + reflexivity.
    + discriminate.
    + lia.
Defined.

Lemma spec_logit_local (q k q' k' : tensor R) (mask : option (tensor R))
      (depth : nat) (bi : list nat) (i j : nat) :
  (forall d, (d < depth)%nat -> rget q (bi ++ [i; d]) = rget q' (bi ++ [i; d])) ->
  (forall d, (d < depth)%nat -> rget k (bi ++ [j; d]) = rget k' (bi ++ [j; d])) ->
  spec_logit q k mask depth bi i j = spec_logit q' k' mask depth bi i j.
Proof.
  intros Hq Hk. unfold spec_logit.
  rewrite (sum_n_ext depth
             (fun d => rget q (bi ++ [i; d]) * rget k (bi ++ [j; d]))
             (fun d => rget q' (bi ++ [i; d]) * rget k' (bi ++ [j; d])))
    by (intros d Hd; rewrite Hq, Hk by exact Hd; reflexivity).
  reflexivity.
Qed.

Lemma spec_weight_local (q k q' k' : tensor R) (mask : option (tensor R))
      (depth sk : nat) (bi : list nat) (i j : nat) :
  (forall d, (d < depth)%nat -> rget q (bi ++ [i; d]) = rget q' (bi ++ [i; d])) ->
  (forall j' d, (j' < sk)%nat -> (d < depth)%nat ->
     rget k (bi ++ [j'; d]) = rget k' (bi ++ [j'; d])) ->
  (j < sk)%nat ->
  spec_weight q k mask depth sk bi i j = spec_weight q' k' mask depth sk bi i j.
Proof.
  intros Hq Hk Hj. unfold spec_weight.
  rewrite (spec_logit_local q k q' k' mask depth bi i j Hq)
    by (intros d Hd; apply Hk; assumption).
  f_equal. apply sum_n_ext. intros j' Hj'.
  rewrite (spec_logit_local q k q' k' mask depth bi i j' Hq)
    by (intros d Hd; apply Hk; assumption).
  reflexivity.
Qed.

Lemma sdpa_local
        (pre : list nat) (sq sk depth dv : nat)
        (q k v q' k' v' : tensor R) (mask : option (tensor R))
        (bi : list nat) :
  shape q = pre ++ [sq; depth] -> shape q' = pre ++ [sq; depth] ->
  shape k = pre ++ [sk; depth] -> shape k' = pre ++ [sk; depth] ->
  shape v = pre ++ [sk; dv] -> shape v' = pre ++ [sk; dv] ->
  (forall m, mask = Some m ->
     broadcast_shapes (pre ++ [sq; sk]) (shape m) = Ok (pre ++ [sq; sk])) ->
  in_bounds pre bi ->
  (forall i d, (i < sq)%nat -> (d < depth)%nat ->
     rget q (bi ++ [i; d]) = rget q' (bi ++ [i; d])) ->
  (forall j d, (j < sk)%nat -> (d < depth)%nat ->
     rget k (bi ++ [j; d]) = rget k' (bi ++ [j; d])) ->
  (forall j c, (j < sk)%nat -> (c < dv)%nat ->
     rget v (bi ++ [j; c]) = rget v' (bi ++ [j; c])) ->
  exists output w output' w',
    scaled_dot_product_attention q k v mask = Ok (output, w) /\
    scaled_dot_product_attention q' k' v' mask = Ok (output', w') /\
    (forall i j, (i < sq)%nat -> (j < sk)%nat ->
       rget w (bi ++ [i; j]) = rget w' (bi ++ [i; j])) /\
    (forall i c, (i < sq)%nat -> (c < dv)%nat ->
       rget output (bi ++ [i; c]) = rget output' (bi ++ [i; c])).
Proof.
  intros Hq Hq' Hk Hk' Hv Hv' Hm Hbi Aq Ak Av.
  destruct (sdpa_entries pre sq sk depth dv q k v mask Hq Hk Hv Hm)
    as (out & w & E & _ & _ & _ & _ & Gw & Go).
  destruct (sdpa_entries pre sq sk depth dv q' k' v' mask Hq' Hk' Hv' Hm)
    as (out' & w' & E' & _ & _ & _ & _ & Gw' & Go').
  exists out, w, out', w'. split; [exact E|]. split; [exact E'|].
  assert (Hw : forall i j, (i < sq)%nat -> (j < sk)%nat ->
            spec_weight q k mask depth sk bi i j =
            spec_weight q' k' mask depth sk bi i j).
  { intros i j Hi Hj. apply spec_weight_local; [|exact Ak|exact Hj].
    intros d Hd. apply Aq; assumption. }
  split.
  - intros i j Hi Hj. rewrite Gw, Gw' by assumption. apply Hw; assumption.
  - intros i c Hi Hc. rewrite Go, Go' by assumption.
    unfold spec_attention. apply sum_n_ext. intros j Hj.
    rewrite Hw, Av by assumption. reflexivity.
Qed.

(** X6.  Attention never mixes the leading axes (batch rows, heads): the
    weights and the output at a leading index depend only on the queries,
    keys and values at that index. *)
Theorem attention_is_local_to_leading_index
        (pre : list nat) (sq sk depth dv : nat)
        (q k v q' k' v' : tensor R) (mask : option (tensor R))
        (bi : list nat) :
  shape q = pre ++ [sq; depth] -> shape q' = pre ++ [sq; depth] ->
  shape k = pre ++ [sk; depth] -> shape k' = pre ++ [sk; depth] ->
  shape v = pre ++ [sk; dv] -> shape v' = pre ++ [sk; dv] ->
  (forall m, mask = Some m ->
     broadcast_shapes (pre ++ [sq; sk]) (shape m) = Ok (pre ++ [sq; sk])) ->
  in_bounds pre bi ->
  (forall i d, (i < sq)%nat -> (d < depth)%nat ->
     rget q (bi ++ [i; d]) = rget q' (bi ++ [i; d])) ->
  (forall j d, (j < sk)%nat -> (d < depth)%nat ->
     rget k (bi ++ [j; d]) = rget k' (bi ++ [j; d])) ->
  (forall j c, (j < sk)%nat -> (c < dv)%nat ->
     rget v (bi ++ [j; c]) = rget v' (bi ++ [j; c])) ->
  exists output w output' w',
    scaled_dot_product_attention q k v mask = Ok (output, w) /\
    scaled_dot_product_attention q' k' v' mask = Ok (output', w') /\
    (forall i j, (i < sq)%nat -> (j < sk)%nat ->
       rget w (bi ++ [i; j]) = rget w' (bi ++ [i; j])) /\
    (forall i c, (i < sq)%nat -> (c < dv)%nat ->
       rget output (bi ++ [i; c]) = rget output' (bi ++ [i; c])).
Proof.
  exact (sdpa_local pre sq sk depth dv q k v q' k' v' mask bi).
Qed.

Lemma attention_is_local_to_leading_index_witness :
  exists output w output' w',
    scaled_dot_product_attention
      (mkTensor [2%nat; 1%nat; 1%nat] [1; 5])
      (mkTensor [2%nat; 1%nat; 1%nat] [1; 6])
      (mkTensor [2%nat; 1%nat; 1%nat] [1; 7]) None = Ok (output, w) /\
    scaled_dot_product_attention
      (mkTensor [2%nat; 1%nat; 1%nat] [1; 0])
      (mkTensor [2%nat; 1%nat; 1%nat] [1; 0])
      (mkTensor [2%nat; 1%nat; 1%nat] [1; 0]) None = Ok (output', w') /\
    rget output [0%nat; 0%nat; 0%nat] = rget output' [0%nat; 0%nat; 0%nat].
Proof.
  destruct (attention_is_local_to_leading_index [2%nat] 1 1 1 1
              (mkTensor [2%nat; 1%nat; 1%nat] [1; 5])
              (mkTensor [2%nat; 1%nat; 1%nat] [1; 6])
              (mkTensor [2%nat; 1%nat; 1%nat] [1; 7])
              (mkTensor [2%nat; 1%nat; 1%nat] [1; 0])
              (mkTensor [2%nat; 1%nat; 1%nat] [1; 0])
              (mkTensor [2%nat; 1%nat; 1%nat] [1; 0]) None [0%nat])
    as (out & w & out' & w' & E & E' & _ & Go);
    try reflexivity; try discriminate.
  - repeat constructor.
  - intros i d Hi Hd. replace i with 0%nat by lia. replace d with 0%nat by lia.
    reflexivity.
  - intros j d Hj Hd. replace j with 0%nat by lia. replace d with 0%nat by lia.
    reflexivity.
  - intros j c Hj Hc. replace j with 0%nat by lia. replace c with 0%nat by lia.
    reflexivity.
  - exists out, w, out', w'. split; [exact E|]. split; [exact E'|].
    apply (Go 0%nat 0%nat); lia.
Defined.

End AttentionErrors.

(** ** Heads: round trip, shared masks, mismatched batches *)

Section Heads.

Local Open Scope R_scope.

(** [MultiHeadAttention.call] merges the heads with [merge_heads]. *)
Lemma call_merges_heads (self : MultiHeadAttention.t) (v k q : tensor R)
      (mask : option (tensor R)) :
  MultiHeadAttention.call self v k q mask =
  (batch_size <- shape_at q 0 ;;
   q <- Dense.call (MultiHeadAttention.wq self) q ;;
   k <- Dense.call (MultiHeadAttention.wk self) k ;;
   v <- Dense.call (MultiHeadAttention.wv self) v ;;
   q <- MultiHeadAttention.split_heads self q batch_size ;;
   k <- MultiHeadAttention.split_heads self k batch_size ;;
   v <- MultiHeadAttention.split_heads self v batch_size ;;
   '(scaled_attention, attention_weights) <-
     scaled_dot_product_attention q k v mask ;;
   concat_attention <- merge_heads self scaled_attention batch_size ;;
   output <- Dense.call (MultiHeadAttention.dense self) concat_attention ;;
   Ok (output, attention_weights)).
Proof.
  unfold MultiHeadAttention.call, merge_heads.
  destruct (shape_at q 0) as [b|]; cbn [bind]; [|reflexivity].
  destruct (Dense.call (MultiHeadAttention.wq self) q) as [pq|];
    cbn [bind]; [|reflexivity].
  destruct (Dense.call (MultiHeadAttention.wk self) k) as [pk|];
    cbn [bind]; [|reflexivity].
  destruct (Dense.call (MultiHeadAttention.wv self) v) as [pv|];
    cbn [bind]; [|reflexivity].
  destruct (MultiHeadAttention.split_heads self pq b) as [qh|];
    cbn [bind]; [|reflexivity].
  destruct (MultiHeadAttention.split_heads self pk b) as [kh|];
    cbn [bind]; [|reflexivity].
  destruct (MultiHeadAttention.split_heads self pv b) as [vh|];
    cbn [bind]; [|reflexivity].
  destruct (scaled_dot_product_attention qh kh vh mask) as [[sa aw]|];
    cbn [bind]; [|reflexivity].
  destruct (transpose 0 sa [0%nat; 2%nat; 1%nat; 3%nat]) as [tr|];
    cbn [bind]; reflexivity.
Qed.

(** X7.  Merging the heads undoes [split_heads]: for a well-formed tensor
    of shape (batch, seq_len, heads * depth), splitting and merging
    returns the tensor itself. *)
Theorem split_then_merge_heads
        (self : MultiHeadAttention.t) (x : tensor R) (b s h dp : nat) :
  (0 < b)%nat -> (0 < h)%nat -> (0 < dp)%nat ->
  MultiHeadAttention.num_heads self = Z.of_nat h ->
  MultiHeadAttention.depth self = Z.of_nat dp ->
  MultiHeadAttention.d_model self = Z.of_nat (h * dp) ->
  shape x = [b; s; h * dp]%nat -> wf x ->
  (y <- MultiHeadAttention.split_heads self x b ;; merge_heads self y b) = Ok x.
Proof.
  intros Hb Hh Hdp Hnh Hd Hdm Hx Wx.
  destruct (split_heads_spec self x b s h dp Hb Hh Hdp Hnh Hd Hx)
    as (y & Ey & Sy & _ & Gy).
  rewrite Ey. cbn [bind]. unfold merge_heads.
  destruct (transpose_0213 y b h s dp Sy) as (tr & Et & St & Wt & Gt).
  rewrite Et. cbn [bind].
  rewrite Hdm, (reshape_merge tr b s h dp) by assumption.
  f_equal.
  apply (tensor_ext 0).
  - unfold wf in *. cbn [shape data]. rewrite Wt, St. simpl. lia.
  - exact Wx.
  - cbn [shape]. symmetry. exact Hx.
  - cbn [shape]. intros idx Hidx.
    inversion Hidx as [|i n1 t1 s1 Hi H1]; subst.
    inversion H1 as [|p n2 t2 s2 Hp H2]; subst.
    inversion H2 as [|c n3 t3 s3 Hc H3]; subst.
    inversion H3; subst.
    fold (rget (mkTensor [b; s; (h * dp)%nat] (data tr)) [i; p; c]).
    fold (rget x [i; p; c]).
    rewrite (merge_heads_entry tr b s h dp i p c Hdp St).
    assert (Ha : (c / dp < h)%nat)
      by (apply Nat.Div0.div_lt_upper_bound; lia).
    assert (Hd' : (c mod dp < dp)%nat) by (apply Nat.mod_upper_bound; lia).
    rewrite Gt, Gy by assumption.
    replace (c / dp * dp + c mod dp)%nat with c
      by (pose proof (Nat.div_mod_eq c dp); lia).
    reflexivity.
Qed.

Lemma split_then_merge_heads_witness :
  (y <- MultiHeadAttention.split_heads sample_mha sample_input 1 ;;
   merge_heads sample_mha y 1) = Ok sample_input.
Proof.
  apply (split_then_merge_heads sample_mha sample_input 1 1 1 1);
    try reflexivity; lia.
Defined.

Lemma broadcast_dim_1_r (x : nat) : broadcast_dim x 1%nat = Ok x.
Proof.
  unfold broadcast_dim.
  destruct (Nat.eqb_spec x 1) as [->|_]; reflexivity.
Qed.

Lemma broadcast_padding_shape (b h sq sk : nat) :
  broadcast_shapes [b; h; sq; sk] [b; 1; 1; sk]%nat = Ok [b; h; sq; sk].
Proof.
  unfold broadcast_shapes. cbn [rev app broadcast_rev bind].
  rewrite !broadcast_dim_refl, !broadcast_dim_1_r. reflexivity.
Qed.

Lemma bcast_index_padding (b sk i a p j : nat) :
  (i < b)%nat -> (j < sk)%nat ->
  bcast_index [b; 1; 1; sk]%nat [i; a; p; j] = [i; 0; 0; j]%nat.
Proof.
  intros Hi Hj. unfold bcast_index. cbn.
  destruct (Nat.eqb_spec b 1) as [->|_];
    destruct (Nat.eqb_spec sk 1) as [->|_];
    repeat f_equal; lia.
Qed.

(** X8.  A padding mask of shape (batch, 1, 1, seq_len_k) is accepted by
    [MultiHeadAttention.call] and is shared by all heads and all query
    positions: the penalty added to the score of key [j] in batch row [i]
    is [mask[i, 0, 0, j] * -1e9] whatever the head and the query. *)
Theorem padding_mask_is_shared_by_heads
        (self : MultiHeadAttention.t) (h dp cq ck cv b sq sk : nat)
        (q k v m : tensor R) :
  mha_ok self h dp cq ck cv -> (0 < b)%nat ->
  shape q = [b; sq; cq] -> shape k = [b; sk; ck] -> shape v = [b; sk; cv] ->
  shape m = [b; 1; 1; sk]%nat ->
  exists qh kh output weights,
    MultiHeadAttention.call self v k q (Some m) = Ok (output, weights) /\
    heads_of (MultiHeadAttention.wq self) q qh b sq h dp /\
    heads_of (MultiHeadAttention.wk self) k kh b sk h dp /\
    forall i a p j, (i < b)%nat -> (a < h)%nat -> (p < sq)%nat -> (j < sk)%nat ->
      rget weights [i; a; p; j] =
      exp (spec_logit qh kh None dp [i; a] p j
           + rget m [i; 0; 0; j]%nat * - 1000000000)
      / sum_n sk (fun j' =>
          exp (spec_logit qh kh None dp [i; a] p j'
               + rget m [i; 0; 0; j']%nat * - 1000000000)).
Proof.
  intros Hok Hb Hq Hk Hv Hmsh.
  assert (Hm : forall m', Some m = Some m' ->
            broadcast_shapes [b; h; sq; sk] (shape m') = Ok [b; h; sq; sk]).
  { intros m' [= <-]. rewrite Hmsh. apply broadcast_padding_shape. }
  destruct (mha_call_spec self h dp cq ck cv b sq sk q k v (Some m)
              Hok Hb Hq Hk Hv Hm)
    as (qh & kh & vh & att & w & out & E & Hqh & Hkh & Hvh & Es & _).
  destruct (sdpa_entries [b; h] sq sk dp dp qh kh vh (Some m)
              (proj1 Hqh) (proj1 Hkh) (proj1 Hvh) Hm)
    as (att' & w' & Es' & _ & _ & _ & _ & Gw & _).
  rewrite Es in Es'. injection Es' as <- <-.
  exists qh, kh, out, w. split; [exact E|]. split; [exact Hqh|].
  split; [exact Hkh|].
  intros i a p j Hi Ha Hp Hj.
  assert (Hbi : in_bounds [b; h] [i; a]) by (repeat constructor; assumption).
  pose proof (Gw [i; a] p j Hbi Hp Hj) as G. cbn [app] in G. rewrite G.
  unfold spec_weight. rewrite spec_logit_some. cbn [app].
  rewrite Hmsh, (bcast_index_padding b sk i a p j Hi Hj).
  f_equal. apply sum_n_ext. intros j' Hj'.
  rewrite spec_logit_some. cbn [app].
  rewrite Hmsh, (bcast_index_padding b sk i a p j' Hi Hj'). reflexivity.
Qed.

Lemma padding_mask_is_shared_by_heads_witness :
  exists output weights,
    MultiHeadAttention.call sample_mha sample_input sample_input sample_input
      (Some (mkTensor [1; 1; 1; 1]%nat [1])) = Ok (output, weights).
Proof.
  destruct (padding_mask_is_shared_by_heads sample_mha 1 1 1 1 1 1 1 1
              sample_input sample_input sample_input
              (mkTensor [1; 1; 1; 1]%nat [1]))
    as (qh & kh & out & w & E & _); try reflexivity; try lia.
  - exact sample_mha_ok.
  - exists out, w. exact E.
Defined.



End Heads.

(** ** Keys and values of another batch size *)

Section MismatchedBatch.

Local Open Scope R_scope.

(** With a batch size of 1 taken from the query, the reshape of
    [split_heads] lays all the rows of a tensor of any batch size out as
    one sequence. *)
Lemma reshape_split_flat (x : tensor R) (bk s h dp : nat) :
  (0 < h)%nat -> (0 < dp)%nat ->
  shape x = [bk; s; h * dp]%nat ->
  reshape x [Z.of_nat 1; (-1)%Z; Z.of_nat h; Z.of_nat dp] =
  Ok (mkTensor [1; bk * s; h; dp]%nat (data x)).
Proof.
  intros Hh Hdp Hx. unfold reshape.
  cbn [existsb]. rewrite !of_nat_ltb_m1.
  change (-1 <? -1)%Z with false. cbn [orb].
  rewrite count_m1_of_nat, count_occ_cons_eq by reflexivity.
  rewrite !count_m1_of_nat. cbn [count_occ].
  cbn [filter]. rewrite !of_nat_eqb_m1. cbn [negb Z.eqb Pos.eqb map].
  rewrite !Nat2Z.id, Hx.
  assert (Ek : numel [1; h; dp]%nat = (h * dp)%nat) by (simpl; lia).
  assert (Et : numel [bk; s; (h * dp)%nat] = (bk * s * (h * dp))%nat)
    by (simpl; lia).
  rewrite Ek, Et.
  assert (Hpos : (h * dp <> 0)%nat) by nia.
  destruct (Nat.eqb_spec (h * dp) 0) as [E0|_]; [contradiction|].
  rewrite Nat.Div0.mod_mul, Nat.eqb_refl, Nat.div_mul by exact Hpos.
  rewrite ?of_nat_eqb_m1. reflexivity.
Qed.

Lemma split_heads_flat (self : MultiHeadAttention.t) (x : tensor R)
      (bk s h dp : nat) :
  (0 < h)%nat -> (0 < dp)%nat ->
  MultiHeadAttention.num_heads self = Z.of_nat h ->
  MultiHeadAttention.depth self = Z.of_nat dp ->
  shape x = [bk; s; h * dp]%nat ->
  exists y, MultiHeadAttention.split_heads self x 1 = Ok y /\
    shape y = [1; h; bk * s; dp]%nat /\
    forall a t d, (a < h)%nat -> (t < bk * s)%nat -> (d < dp)%nat ->
      rget y [0; a; t; d]%nat = rget x [t / s; t mod s; a * dp + d]%nat.
Proof.
  intros Hh Hdp Hnh Hd Hx. unfold MultiHeadAttention.split_heads.
  rewrite Hnh, Hd, (reshape_split_flat x bk s h dp) by assumption.
  cbn [bind].
  destruct (transpose_0213 (mkTensor [1; bk * s; h; dp]%nat (data x))
              1 (bk * s) h dp eq_refl)
    as (y & E & S & _ & G).
  exists y. split; [exact E|]. split; [exact S|].
  intros a t d Ha Ht Hd'. rewrite G by (try assumption; lia).
  unfold rget, get. cbn [shape data]. rewrite Hx. f_equal.
  pose proof (Nat.div_mod_eq t s) as Hts.
  set (u := (t / s)%nat) in *. set (r := (t mod s)%nat) in *.
  clearbody u r. subst t. simpl. ring.
Qed.

(** X10.  The batch size used to split the heads is that of the query.
    When it is 1, keys and values of any batch size [bk] are accepted
    without error, and the query attends over all their [bk * sk] rows as
    one sequence of keys: key [t] of the merged sequence is row [t mod sk]
    of batch row [t / sk]. *)
Theorem keys_of_other_batch_size_are_merged
        (self : MultiHeadAttention.t) (h dp cq ck cv bk sq sk : nat)
        (q k v : tensor R) :
  mha_ok self h dp cq ck cv ->
  shape q = [1; sq; cq]%nat ->
  shape k = [bk; sk; ck] -> shape v = [bk; sk; cv] ->
  exists kh output weights,
    MultiHeadAttention.call self v k q None = Ok (output, weights) /\
    shape weights = [1; h; sq; bk * sk]%nat /\
    shape output = [1; sq; h * dp]%nat /\
    shape kh = [1; h; bk * sk; dp]%nat /\
    (forall a t d, (a < h)%nat -> (t < bk * sk)%nat -> (d < dp)%nat ->
       rget kh [0; a; t; d]%nat =
       dense_entry (MultiHeadAttention.wk self) k [t / sk; t mod sk]%nat
                   (a * dp + d)) /\
    exists qh vh att,
      scaled_dot_product_attention qh kh vh None = Ok (att, weights).
Proof.
  intros (Hh & Hdp & Hnh & Hd & Hdm & Okq & Okk & Okv & Oko) Hq Hk Hv.
  unfold MultiHeadAttention.call.
  unfold shape_at. rewrite Hq. cbn [nth_error bind].
  destruct (dense_ok_entries _ 1 sq cq _ q Okq Hq) as (pq & Eq & Sq & _ & Gq).
  destruct (dense_ok_entries _ bk sk ck _ k Okk Hk) as (pk & Ek & Sk & _ & Gk).
  destruct (dense_ok_entries _ bk sk cv _ v Okv Hv) as (pv & Ev & Sv & _ & Gv).
  rewrite Eq, Ek, Ev. cbn [bind].
  destruct (split_heads_flat self pq 1 sq h dp Hh Hdp Hnh Hd Sq)
    as (qh & Eqh & Sqh & _).
  destruct (split_heads_flat self pk bk sk h dp Hh Hdp Hnh Hd Sk)
    as (kh & Ekh & Skh & Gkh).
  destruct (split_heads_flat self pv bk sk h dp Hh Hdp Hnh Hd Sv)
    as (vh & Evh & Svh & _).
  rewrite Eqh, Ekh, Evh. cbn [bind].
  rewrite Nat.mul_1_l in Sqh.
  destruct (sdpa_entries [1; h]%nat sq (bk * sk) dp dp qh kh vh None
              Sqh Skh Svh)
    as (att & w & Ea & Sw & _ & Sa & _ & _ & _); [discriminate|].
  rewrite Ea. cbn [bind].
  destruct (transpose_0213 att 1 h sq dp Sa) as (tr & Et & St & _ & _).
  rewrite Et. cbn [bind].
  rewrite Hdm, (reshape_merge tr 1 sq h dp) by (try assumption; lia).
  cbn [bind].
  destruct (dense_spec (MultiHeadAttention.dense self) [1%nat] sq (h * dp)
              (h * dp) (mkTensor [1; sq; h * dp]%nat (data tr)) eq_refl
              (proj1 Oko) (proj1 (proj2 Oko)) (proj2 (proj2 Oko)))
    as (out & Eo & So & _ & _).
  rewrite Eo. cbn [bind].
  exists kh, out, w. split; [reflexivity|]. split; [exact Sw|].
  split; [exact So|]. split; [exact Skh|]. split.
  - intros a t d Ha Ht Hd'. rewrite Gkh by assumption.
    destruct (Nat.eq_dec sk 0) as [->|Hsk]; [lia|].
    apply Gk.
    + apply Nat.Div0.div_lt_upper_bound. lia.
    + apply Nat.mod_upper_bound. exact Hsk.
    + nia.
  - exists qh, vh, att. exact Ea.
Qed.

Lemma keys_of_other_batch_size_are_merged_witness :
  exists output weights,
    MultiHeadAttention.call sample_mha
      (mkTensor [2; 1; 1]%nat [1; 1]) (mkTensor [2; 1; 1]%nat [1; 1])
      sample_input None = Ok (output, weights) /\
    shape weights = [1; 1; 1; 2]%nat.
Proof.
  destruct (keys_of_other_batch_size_are_merged sample_mha 1 1 1 1 1 2 1 1
              sample_input (mkTensor [2; 1; 1]%nat [1; 1])
              (mkTensor [2; 1; 1]%nat [1; 1]))
    as (kh & out & w & E & Sw & _); try reflexivity.
  - exact sample_mha_ok.
  - exists out, w. split; assumption.
Defined.

End MismatchedBatch.

(** ** Feed-forward output, constructors and normalised rows *)

Section Constructors.

Local Open Scope R_scope.

(** X11.  The second projection of [PointWiseFFN] is followed by a relu
    as well, so no entry of the output of the block is negative. *)
Theorem point_wise_ffn_output_is_nonnegative
        (d_model : Z) (rate : R) (w : PointWiseFFN.weights)
        (b s c : nat) (x : tensor R) (training : bool)
        (keep : list nat -> bool) :
  ffn_weights_ok w c (Z.to_nat d_model) -> shape x = [b; s; c] ->
  exists out,
    PointWiseFFN.call (PointWiseFFN.init d_model rate w) x training keep
      = Ok out /\
    forall i p o, (i < b)%nat -> (p < s)%nat -> (o < Z.to_nat d_model)%nat ->
      0 <= rget out [i; p; o].
Proof.
  intros Hw Hx.
  destruct (ffn_call_spec (PointWiseFFN.init d_model rate w) b s c
              (Z.to_nat d_model) x training keep
              (init_ffn_ok d_model rate w c Hw) Hx)
    as (out & E & _ & _ & G).
  exists out. split; [exact E|].
  intros i p o Hi Hp Ho. rewrite G by assumption.
  unfold ffn_position, project_position, relu. apply Rmax_l.
Qed.

Lemma point_wise_ffn_output_is_nonnegative_witness :
  exists out,
    PointWiseFFN.call (PointWiseFFN.init 1 (1 / 10) sample_ffn_weights)
      sample_input true (fun _ => true) = Ok out /\
    0 <= rget out [0; 0; 0]%nat.
Proof.
  destruct (point_wise_ffn_output_is_nonnegative 1 (1 / 10) sample_ffn_weights
              1 1 1 sample_input true (fun _ => true))
    as (out & E & G).
  - unfold ffn_weights_ok. cbn. repeat split; reflexivity.
  - reflexivity.
  - exists out. split; [exact E|]. apply G; cbn; lia.
Defined.












End Constructors.

(** ** Dropout rate zero, blocked keys, batch rows *)

Section MoreProperties.

Local Open Scope R_scope.

Lemma dropout_rate_zero (x : tensor R) (training : bool)
      (keep : list nat -> bool) :
  Dropout.call (Dropout.mk 0) x training keep = x.
Proof.
  unfold Dropout.call. cbn [Dropout.rate]. destruct training; [|reflexivity].
  destruct (Req_dec_T 0 0) as [_|N]; [reflexivity|contradiction].
Qed.

(** X15.  In an encoder layer constructed with dropout rate 0 the
    [training] flag and the random keep decisions have no effect: the call
    returns what it returns at inference. *)
Theorem zero_rate_disables_dropout
        (d_model num_heads : Z) (w : SASEncoderLayer.weights)
        (self : SASEncoderLayer.t) (x : tensor R) (training : bool)
        (mask : option (tensor R)) (nz nz' : SASEncoderLayer.noise) :
  SASEncoderLayer.init d_model num_heads 0 w = Ok self ->
  SASEncoderLayer.call self x training mask nz =
  SASEncoderLayer.call self x false mask nz'.
Proof.
  unfold SASEncoderLayer.init. intros Hinit.
  destruct (MultiHeadAttention.init d_model num_heads (SASEncoderLayer.mha_w w))
    as [m|e]; [|discriminate].
  cbn [bind] in Hinit. injection Hinit as <-.
  unfold SASEncoderLayer.call, PointWiseFFN.call.
  cbn [SASEncoderLayer.mha SASEncoderLayer.ffn SASEncoderLayer.dropout1
       SASEncoderLayer.dropout2 SASEncoderLayer.layernorm1
       SASEncoderLayer.layernorm2 PointWiseFFN.init PointWiseFFN.dropout
       PointWiseFFN.conv1d_1 PointWiseFFN.conv1d_2].
  destruct (MultiHeadAttention.call m x x x mask) as [[attn aw]|];
    cbn [bind]; [|reflexivity].
  rewrite !dropout_rate_zero.
  destruct (broadcast_op Rplus x attn) as [s1|]; cbn [bind]; [|reflexivity].
  destruct (LayerNormalization.call _ s1) as [out1|]; cbn [bind];
    [|reflexivity].
  destruct (Conv1D.call _ out1) as [h1|]; cbn [bind]; [|reflexivity].
  rewrite !dropout_rate_zero.
  destruct (Conv1D.call _ h1) as [f1|]; cbn [bind]; [|reflexivity].
  rewrite !dropout_rate_zero. reflexivity.
Qed.

Lemma zero_rate_disables_dropout_witness :
  SASEncoderLayer.call sample_layer_rate0 sample_input true None
    sample_layer_noise =
  SASEncoderLayer.call sample_layer_rate0 sample_input false None
    sample_layer_noise.
Proof.
  apply (zero_rate_disables_dropout 1 1 sample_layer_weights
           sample_layer_rate0 sample_input true None sample_layer_noise
           sample_layer_noise).
  reflexivity.
Defined.

Lemma sum_n_split (n : nat) (f : nat -> R) (j : nat) :
  (j < n)%nat ->
  sum_n n f = f j + sum_n n (fun i => if (i =? j)%nat then 0 else f i).
Proof.
  induction n as [|n IH]; intros Hj; [lia|].
  rewrite !sum_n_S.
  destruct (Nat.eq_dec j n) as [->|Hne].
  - rewrite Nat.eqb_refl.
    rewrite (sum_n_ext n (fun i => if (i =? n)%nat then 0 else f i) f).
    + lra.
    + intros i Hi. destruct (Nat.eqb_spec i n); [lia|reflexivity].
  - rewrite IH by lia.
    destruct (Nat.eqb_spec n j); [lia|]. lra.
Qed.

Lemma ratio_mono (x y t : R) :
  0 < x -> x <= y -> 0 <= t -> x / (x + t) <= y / (y + t).
Proof.
  intros Hx Hxy Ht.
  apply (Rmult_le_reg_r ((x + t) * (y + t))); [nra|].
  replace (x / (x + t) * ((x + t) * (y + t))) with (x * (y + t))
    by (field; lra).
  replace (y / (y + t) * ((x + t) * (y + t))) with (y * (x + t))
    by (field; lra).
  nra.
Qed.

(** X16.  Blocking one key of a query row (mask 1 there, 0 on the other
    keys of the row) never raises the weight of that key and never lowers
    the weight of any other key of the row. *)
Theorem blocking_a_key_shifts_weight_away
        (pre : list nat) (sq sk depth dv : nat) (q k v m : tensor R)
        (bi : list nat) (i j : nat) :
  shape q = pre ++ [sq; depth] ->
  shape k = pre ++ [sk; depth] ->
  shape v = pre ++ [sk; dv] ->
  broadcast_shapes (pre ++ [sq; sk]) (shape m) = Ok (pre ++ [sq; sk]) ->
  in_bounds pre bi -> (i < sq)%nat -> (j < sk)%nat ->
  rget m (bcast_index (shape m) (bi ++ [i; j])) = 1 ->
  (forall j', (j' < sk)%nat -> j' <> j ->
     rget m (bcast_index (shape m) (bi ++ [i; j'])) = 0) ->
  exists output w output0 w0,
    scaled_dot_product_attention q k v (Some m) = Ok (output, w) /\
    scaled_dot_product_attention q k v None = Ok (output0, w0) /\
    rget w (bi ++ [i; j]) <= rget w0 (bi ++ [i; j]) /\
    (forall j', (j' < sk)%nat -> j' <> j ->
       rget w0 (bi ++ [i; j']) <= rget w (bi ++ [i; j'])).
Proof.
  intros Hq Hk Hv Hm Hbi Hi Hj Mj Mo.
  destruct (sdpa_entries pre sq sk depth dv q k v (Some m) Hq Hk Hv)
    as (out & w & E & _ & _ & _ & _ & Gw & _).
  { intros m' [= <-]. exact Hm. }
  destruct (sdpa_entries pre sq sk depth dv q k v None Hq Hk Hv)
    as (out0 & w0 & E0 & _ & _ & _ & _ & Gw0 & _); [discriminate|].
  exists out, w, out0, w0. split; [exact E|]. split; [exact E0|].
  set (l := fun x => spec_logit q k None depth bi i x).
  set (lm := fun x => spec_logit q k (Some m) depth bi i x).
  assert (Hlj : lm j = l j + - 1000000000).
  { unfold lm, l. rewrite spec_logit_some, Mj. lra. }
  assert (Hlo : forall j', (j' < sk)%nat -> j' <> j -> lm j' = l j').
  { intros j' Hj' Hne. unfold lm, l. rewrite spec_logit_some, (Mo j' Hj' Hne).
    lra. }
  assert (Hdelta : exp (lm j) <= exp (l j)).
  { apply exp_le_mono. rewrite Hlj. lra. }
  assert (Hrest : sum_n sk (fun x => if (x =? j)%nat then 0 else exp (lm x)) =
                  sum_n sk (fun x => if (x =? j)%nat then 0 else exp (l x))).
  { apply sum_n_ext. intros x Hx.
    destruct (Nat.eqb_spec x j) as [_|Hne]; [reflexivity|].
    rewrite Hlo by assumption. reflexivity. }
  assert (Hpos : 0 <= sum_n sk (fun x => if (x =? j)%nat then 0 else exp (l x))).
  { apply sum_n_nonneg. intros x _.
    destruct (x =? j)%nat; [lra|left; apply exp_pos]. }
  pose proof (sum_n_split sk (fun x => exp (lm x)) j Hj) as Sm.
  pose proof (sum_n_split sk (fun x => exp (l x)) j Hj) as S0.
  cbv beta in Sm, S0. rewrite Hrest in Sm.
  pose proof (exp_pos (lm j)) as Pm. pose proof (exp_pos (l j)) as P0.
  split.
  - rewrite Gw, Gw0 by assumption. unfold spec_weight.
    fold (lm j) (l j).
    change (fun j' => exp (spec_logit q k (Some m) depth bi i j'))
      with (fun x => exp (lm x)).
    change (fun j' => exp (spec_logit q k None depth bi i j'))
      with (fun x => exp (l x)).
    rewrite Sm, S0. apply ratio_mono; assumption.
  - intros j' Hj' Hne. rewrite Gw, Gw0 by assumption. unfold spec_weight.
    fold (lm j') (l j'). rewrite (Hlo j' Hj' Hne).
    change (fun j' => exp (spec_logit q k (Some m) depth bi i j'))
      with (fun x => exp (lm x)).
    change (fun j' => exp (spec_logit q k None depth bi i j'))
      with (fun x => exp (l x)).
    rewrite Sm, S0.
    pose proof (exp_pos (l j')) as Pj'.
    unfold Rdiv. apply Rmult_le_compat_l; [lra|].
    apply Rinv_le_contravar; lra.
Qed.

Lemma blocking_a_key_shifts_weight_away_witness :
  exists output w output0 w0,
    scaled_dot_product_attention
      (mkTensor [1%nat; 1%nat] [1]) (mkTensor [2%nat; 1%nat] [1; 0])
      (mkTensor [2%nat; 1%nat] [2; 3])
      (Some (mkTensor [1%nat; 2%nat] [1; 0])) = Ok (output, w) /\
    scaled_dot_product_attention
      (mkTensor [1%nat; 1%nat] [1]) (mkTensor [2%nat; 1%nat] [1; 0])
      (mkTensor [2%nat; 1%nat] [2; 3]) None = Ok (output0, w0) /\
    rget w [0%nat; 0%nat] <= rget w0 [0%nat; 0%nat].
Proof.
  destruct (blocking_a_key_shifts_weight_away [] 1 2 1 1
              (mkTensor [1%nat; 1%nat] [1]) (mkTensor [2%nat; 1%nat] [1; 0])
              (mkTensor [2%nat; 1%nat] [2; 3])
              (mkTensor [1%nat; 2%nat] [1; 0]) [] 0%nat 0%nat)
    as (out & w & out0 & w0 & E & E0 & L & _);
    try reflexivity; try lia; try constructor.
  - intros j' Hj' Hne. destruct j' as [|[|j']]; [lia|reflexivity|lia].
  - exists out, w, out0, w0. split; [exact E|]. split; [exact E0|exact L].
Defined.

End MoreProperties.

(** ** Batch rows in multi-head attention *)

Section BatchRows.

Local Open Scope R_scope.

Lemma dense_entry_local (l : Dense.t) (x x' : tensor R) (row : list nat)
      (c f : nat) :
  last (shape x) 0%nat = c -> last (shape x') 0%nat = c ->
  (forall ch, (ch < c)%nat -> rget x (row ++ [ch]) = rget x' (row ++ [ch])) ->
  dense_entry l x row f = dense_entry l x' row f.
Proof.
  intros Hx Hx' H. unfold dense_entry. rewrite Hx, Hx'. f_equal.
  apply sum_n_ext. intros ch Hch. rewrite H by exact Hch. reflexivity.
Qed.

Lemma heads_of_local (l : Dense.t) (x x' xh xh' : tensor R)
      (b s h dp c i : nat) :
  heads_of l x xh b s h dp -> heads_of l x' xh' b s h dp ->
  shape x = [b; s; c] -> shape x' = [b; s; c] -> (i < b)%nat ->
  (forall p ch, (p < s)%nat -> (ch < c)%nat ->
     rget x [i; p; ch] = rget x' [i; p; ch]) ->
  forall a p d, (a < h)%nat -> (p < s)%nat -> (d < dp)%nat ->
    rget xh [i; a; p; d] = rget xh' [i; a; p; d].
Proof.
  intros (_ & G) (_ & G') Hx Hx' Hi Hagree a p d Ha Hp Hd.
  rewrite G, G' by assumption.
  apply (dense_entry_local l x x' [i; p] c).
  - rewrite Hx. reflexivity.
  - rewrite Hx'. reflexivity.
  - intros ch Hch. apply Hagree; assumption.
Qed.

(** X17.  With queries, keys and values of one common batch size,
    [MultiHeadAttention.call] does not mix batch rows: the output and the
    attention weights of batch row [i] depend only on row [i] of its three
    inputs (and on the mask). *)
Theorem multi_head_attention_keeps_batch_rows_apart
        (self : MultiHeadAttention.t) (h dp cq ck cv b sq sk : nat)
        (q k v q' k' v' : tensor R) (mask : option (tensor R)) (i : nat) :
  mha_ok self h dp cq ck cv -> (0 < b)%nat ->
  shape q = [b; sq; cq] -> shape k = [b; sk; ck] -> shape v = [b; sk; cv] ->
  shape q' = [b; sq; cq] -> shape k' = [b; sk; ck] -> shape v' = [b; sk; cv] ->
  (forall m, mask = Some m ->
     broadcast_shapes [b; h; sq; sk] (shape m) = Ok [b; h; sq; sk]) ->
  (i < b)%nat ->
  (forall p c, (p < sq)%nat -> (c < cq)%nat ->
     rget q [i; p; c] = rget q' [i; p; c]) ->
  (forall p c, (p < sk)%nat -> (c < ck)%nat ->
     rget k [i; p; c] = rget k' [i; p; c]) ->
  (forall p c, (p < sk)%nat -> (c < cv)%nat ->
     rget v [i; p; c] = rget v' [i; p; c]) ->
  exists output weights output' weights',
    MultiHeadAttention.call self v k q mask = Ok (output, weights) /\
    MultiHeadAttention.call self v' k' q' mask = Ok (output', weights') /\
    (forall p f, (p < sq)%nat -> (f < h * dp)%nat ->
       rget output [i; p; f] = rget output' [i; p; f]) /\
    (forall a p j, (a < h)%nat -> (p < sq)%nat -> (j < sk)%nat ->
       rget weights [i; a; p; j] = rget weights' [i; a; p; j]).
Proof.
  intros Hok Hb Hq Hk Hv Hq' Hk' Hv' Hm Hi Aq Ak Av.
  destruct (mha_call_spec self h dp cq ck cv b sq sk q k v mask
              Hok Hb Hq Hk Hv Hm)
    as (qh & kh & vh & att & w & out & E & Hqh & Hkh & Hvh & Es & _ & _ & _ & Go).
  destruct (mha_call_spec self h dp cq ck cv b sq sk q' k' v' mask
              Hok Hb Hq' Hk' Hv' Hm)
    as (qh' & kh' & vh' & att' & w' & out' & E' & Hqh' & Hkh' & Hvh' & Es'
        & _ & _ & _ & Go').
  assert (Hdp : (0 < dp)%nat) by (destruct Hok as (_ & Hdp & _); exact Hdp).
  assert (Hatt : forall a p d, (a < h)%nat -> (p < sq)%nat -> (d < dp)%nat ->
            rget att [i; a; p; d] = rget att' [i; a; p; d]).
  { intros a p d Ha Hp Hd.
    destruct (sdpa_local [b; h] sq sk dp dp qh kh vh qh' kh' vh' mask [i; a]
                (proj1 Hqh) (proj1 Hqh') (proj1 Hkh) (proj1 Hkh')
                (proj1 Hvh) (proj1 Hvh') Hm)
      as (o1 & w1 & o2 & w2 & F1 & F2 & _ & Ho).
    - repeat constructor; assumption.
    - intros p' d' Hp' Hd'. cbn [app].
      apply (heads_of_local _ q q' qh qh' b sq h dp cq i Hqh Hqh' Hq Hq' Hi Aq);
        assumption.
    - intros p' d' Hp' Hd'. cbn [app].
      apply (heads_of_local _ k k' kh kh' b sk h dp ck i Hkh Hkh' Hk Hk' Hi Ak);
        assumption.
    - intros p' d' Hp' Hd'. cbn [app].
      apply (heads_of_local _ v v' vh vh' b sk h dp cv i Hvh Hvh' Hv Hv' Hi Av);
        assumption.
    - rewrite Es in F1. injection F1 as <- <-.
      rewrite Es' in F2. injection F2 as <- <-.
      apply (Ho p d Hp Hd). }
  assert (Hw : forall a p j, (a < h)%nat -> (p < sq)%nat -> (j < sk)%nat ->
            rget w [i; a; p; j] = rget w' [i; a; p; j]).
  { intros a p j Ha Hp Hj.
    destruct (sdpa_local [b; h] sq sk dp dp qh kh vh qh' kh' vh' mask [i; a]
                (proj1 Hqh) (proj1 Hqh') (proj1 Hkh) (proj1 Hkh')
                (proj1 Hvh) (proj1 Hvh') Hm)
      as (o1 & w1 & o2 & w2 & F1 & F2 & Hww & _).
    - repeat constructor; assumption.
    - intros p' d' Hp' Hd'. cbn [app].
      apply (heads_of_local _ q q' qh qh' b sq h dp cq i Hqh Hqh' Hq Hq' Hi Aq);
        assumption.
    - intros p' d' Hp' Hd'. cbn [app].
      apply (heads_of_local _ k k' kh kh' b sk h dp ck i Hkh Hkh' Hk Hk' Hi Ak);
        assumption.
    - intros p' d' Hp' Hd'. cbn [app].
      apply (heads_of_local _ v v' vh vh' b sk h dp cv i Hvh Hvh' Hv Hv' Hi Av);
        assumption.
    - rewrite Es in F1. injection F1 as <- <-.
      rewrite Es' in F2. injection F2 as <- <-.
      apply (Hww p j Hp Hj). }
  exists out, w, out', w'. split; [exact E|]. split; [exact E'|].
  split; [|exact Hw].
  intros p f Hp Hf. rewrite Go, Go' by assumption.
  f_equal. apply sum_n_ext. intros c Hc.
  rewrite Hatt; [reflexivity| |exact Hp|].
  - apply Nat.Div0.div_lt_upper_bound. lia.
  - apply Nat.mod_upper_bound. lia.
Qed.

Lemma multi_head_attention_keeps_batch_rows_apart_witness :
  exists output weights output' weights',
    MultiHeadAttention.call sample_mha
      (mkTensor [2; 1; 1]%nat [1; 2]) (mkTensor [2; 1; 1]%nat [1; 3])
      (mkTensor [2; 1; 1]%nat [1; 4]) None = Ok (output, weights) /\
    MultiHeadAttention.call sample_mha
      (mkTensor [2; 1; 1]%nat [1; 5]) (mkTensor [2; 1; 1]%nat [1; 6])
      (mkTensor [2; 1; 1]%nat [1; 7]) None = Ok (output', weights') /\
    rget output [0; 0; 0]%nat = rget output' [0; 0; 0]%nat.
Proof.
  destruct (multi_head_attention_keeps_batch_rows_apart sample_mha
              1 1 1 1 1 2 1 1
              (mkTensor [2; 1; 1]%nat [1; 4]) (mkTensor [2; 1; 1]%nat [1; 3])
              (mkTensor [2; 1; 1]%nat [1; 2])
              (mkTensor [2; 1; 1]%nat [1; 7]) (mkTensor [2; 1; 1]%nat [1; 6])
              (mkTensor [2; 1; 1]%nat [1; 5]) None 0%nat)
    as (out & w & out' & w' & E & E' & Go & _);
    try reflexivity; try lia; try discriminate.
  - exact sample_mha_ok.
  - intros p c Hp Hc. replace p with 0%nat by lia. replace c with 0%nat by lia.
    reflexivity.
  - intros p c Hp Hc. replace p with 0%nat by lia. replace c with 0%nat by lia.
    reflexivity.
  - intros p c Hp Hc. replace p with 0%nat by lia. replace c with 0%nat by lia.
    reflexivity.
  - exists out, w, out', w'. split; [exact E|]. split; [exact E'|].
    apply (Go 0%nat 0%nat); cbn; lia.
Defined.

End BatchRows.
